(** * Parcel measurement: calibration geometry, rectangle editor and
      locker recommendation

    A shallow embedding of the measuring core of the React application
    (the single-file app with [DraggableRect], [PhotoMeasure] and its
    [recommendLocker]) and of the HTTP handler [api/measure-parcel.ts]
    (its own [recommendLocker] and [handler]).

    Number model.  A JavaScript [number] is idealised as a real number:
    every value is finite, arithmetic is exact, and there is no NaN.  The
    code never divides by zero (every divisor is guarded by [> 0] or by
    [|| 1]), so the idealisation drops rounding, overflow and NaN only.
    [Math.min], [Math.max] are [Rmin], [Rmax]; [Math.hypot dx dy] is
    [sqrt (dx*dx + dy*dy)]; comparisons are the decidable order of [R]
    read back as booleans.  What the idealisation cannot say is said
    beside it: whether a computed double is finite is a parameter of the
    readiness tests ([App.PhotoMeasure.stepDoneTop]), and the scale
    expression is given a second time over binary64 ([Binary64]). *)

From Stdlib Require Import Floats.
From Stdlib Require Import Reals Lra List String Bool.
Import ListNotations.

Set Warnings "-register-all,-inexact-float".

Open Scope string_scope.
Open Scope R_scope.

(** ** JavaScript number operators *)

Module Js.

(** [x <= y] as the boolean the code branches on. *)
Definition leb (x y : R) : bool := if Rle_dec x y then true else false.

(** [x > y]. *)
Definition gtb (x y : R) : bool := if Rlt_dec y x then true else false.

(** Truthiness of a number: everything but [0] (NaN is not modelled). *)
Definition truthy (x : R) : bool := if Req_dec_T x 0 then false else true.

(** [x || d] on numbers: [x] when it is truthy, else [d]. *)
Definition or_else (x d : R) : R := if truthy x then x else d.

End Js.

(** ** The locker catalogue: its keys and the shape of an entry.  Each
       source file declares a [LOCKER_SIZES] table of its own. *)

Inductive LockerKey : Type := small | medium | large.

Module Locker.
Record Spec : Type := mk
  { length : R; width : R; height : R; label : string }.
End Locker.

(** ** api/measure-parcel.ts *)

Module Api.

(** [110.2] and [222.2] are the decimals of the source, exactly. *)
Definition LOCKER_SIZES (key : LockerKey) : Locker.Spec :=
  match key with
  | small  => Locker.mk 385 500 (1102 / 10) "SMALL"
  | medium => Locker.mk 385 500 (2222 / 10) "MEDIUM"
  | large  => Locker.mk 385 500 301 "LARGE"
  end.

(** [const ordered = ["small", "medium", "large"]]. *)
Definition ordered : list LockerKey := [small; medium; large].

Record ParcelMeasurements : Type := mkDims
  { length_mm : R; width_mm : R; height_mm : R }.

(** The [reason] strings.  Two of them are template strings that print
    the height with [toFixed(1)]; they are kept as their template and
    its arguments instead of rendered text. *)
Inductive ReasonText : Type :=
| FootprintExceeds
    (* "Parcel footprint exceeds maximum locker dimensions (385x500mm)" *)
| FitsIn (label : string) (htMM limit : R)
    (* `Fits in ${label} locker (height: ${htMM}mm <= ${limit}mm)` *)
| HeightExceeds (htMM limit : R).
    (* `Height exceeds LARGE locker capacity (${htMM}mm > ${limit}mm)` *)

Record LockerRecommendation : Type := mkRec
  { size : string;
    fits : bool;
    dimensions : ParcelMeasurements;
    lockerSpecs : ParcelMeasurements;
    reason : ReasonText }.

Definition specs_of (spec : Locker.Spec) : ParcelMeasurements :=
  mkDims (Locker.length spec) (Locker.width spec) (Locker.height spec).

(** The [for (const key of ordered)] loop: the first key whose height
    limit admits [htMM] returns from the function. *)
Fixpoint scan (keys : list LockerKey) (lenMM widMM htMM : R)
  : option LockerRecommendation :=
  match keys with
  | [] => None
  | key :: rest =>
      let spec := LOCKER_SIZES key in
      if Js.leb htMM (Locker.height spec)
      then Some (mkRec (Locker.label spec) true
                       (mkDims lenMM widMM htMM)
                       (specs_of spec)
                       (FitsIn (Locker.label spec) htMM (Locker.height spec)))
      else scan rest lenMM widMM htMM
  end.

Definition recommendLocker (lenMM widMM htMM : R) : LockerRecommendation :=
  let a := Rmin lenMM widMM in
  let b := Rmax lenMM widMM in
  let footprintFits :=
    Js.leb a (Locker.length (LOCKER_SIZES small))
    && Js.leb b (Locker.width (LOCKER_SIZES small)) in
  if negb footprintFits
  then mkRec "TOO_LARGE" false (mkDims lenMM widMM htMM)
             (specs_of (LOCKER_SIZES small)) FootprintExceeds
  else match scan ordered lenMM widMM htMM with
       | Some r => r
       | None =>
           mkRec "TOO_TALL" false (mkDims lenMM widMM htMM)
                 (specs_of (LOCKER_SIZES large))
                 (HeightExceeds htMM (Locker.height (LOCKER_SIZES large)))
       end.

(** *** The request handler *)

(** What [req.body] can hold once the platform has parsed it. *)
Inductive JsValue : Type :=
| JUndefined
| JNull
| JBool (b : bool)
| JNumber (n : R)
| JString (s : string)
| JArray (items : list JsValue)
| JObject (fields : list (string * JsValue)).

Fixpoint lookup (fields : list (string * JsValue)) (name : string) : JsValue :=
  match fields with
  | [] => JUndefined
  | (k, v) :: rest => if String.eqb k name then v else lookup rest name
  end.

(** [v.name] for the property names the handler reads ([measurements],
    [metadata], [length_mm], [width_mm], [height_mm]): none of them is a
    property of a string, an array, a number or a boolean.  Reading a
    property of [undefined] or [null] throws; the handler does so only at
    the destructuring of [req.body], see [destructure]. *)
Definition get (v : JsValue) (name : string) : JsValue :=
  match v with
  | JObject fields => lookup fields name
  | _ => JUndefined
  end.

(** [!v] is [negb (truthy v)]. *)
Definition truthy (v : JsValue) : bool :=
  match v with
  | JUndefined | JNull => false
  | JBool b => b
  | JNumber n => Js.truthy n
  | JString s => negb (String.eqb s "")
  | JArray _ | JObject _ => true
  end.

(** [typeof v === 'number'], with the number. *)
Definition as_number (v : JsValue) : option R :=
  match v with
  | JNumber n => Some n
  | _ => None
  end.

Record Request : Type := mkReq { method : string; body : JsValue }.

Inductive Payload : Type :=
| End_                                   (* [res.status(..).end()] *)
| ErrorOnly (error : string)             (* [{ error }] *)
| Failure (error : string)               (* [{ success: false, error }] *)
| Success (lockerRecommendation : LockerRecommendation) (timestamp : string).
                            (* [{ success: true, lockerRecommendation, timestamp }] *)

Inductive LogLine : Type :=
| LogRequest (measurements : JsValue) (recommendation : string)
             (timestamp : string) (metadata : JsValue)
| LogError.

Record Response : Type := mkRes
  { headers : list (string * string);
    status : nat;
    payload : Payload;
    console : list LogLine }.

Definition cors : list (string * string) :=
  [ ("Access-Control-Allow-Origin", "*");
    ("Access-Control-Allow-Methods", "POST, OPTIONS");
    ("Access-Control-Allow-Headers", "Content-Type") ].

Inductive Thrown : Type := TypeError.

(** [const { measurements, metadata } = req.body;] *)
Definition destructure (body : JsValue) : Thrown + (JsValue * JsValue) :=
  match body with
  | JUndefined | JNull => inl TypeError
  | _ => inr (get body "measurements", get body "metadata")
  end.

Definition invalid_measurements : string :=
  "Invalid measurements. Expected: { length_mm: number, width_mm: number, height_mm: number }".

(** The [try] block; [t_log] and [t_res] are the two readings of
    [new Date().toISOString()]. *)
Definition try_block (t_log t_res : string) (body : JsValue)
  : Thrown + (nat * Payload * list LogLine) :=
  match destructure body with
  | inl e => inl e
  | inr (measurements, metadata) =>
      if negb (truthy measurements) then inr (400%nat, Failure invalid_measurements, [])
      else
        match as_number (get measurements "length_mm"),
              as_number (get measurements "width_mm"),
              as_number (get measurements "height_mm") with
        | Some length_mm, Some width_mm, Some height_mm =>
            if Js.leb length_mm 0 || Js.leb width_mm 0 || Js.leb height_mm 0
            then inr (400%nat, Failure "All dimensions must be positive numbers", [])
            else
              let recommendation := recommendLocker length_mm width_mm height_mm in
              inr (200%nat, Success recommendation t_res,
                   [LogRequest measurements (size recommendation) t_log metadata])
        | _, _, _ => inr (400%nat, Failure invalid_measurements, [])
        end
  end.

Definition handler (t_log t_res : string) (req : Request) : Response :=
  if String.eqb (method req) "OPTIONS" then mkRes cors 200 End_ []
  else if negb (String.eqb (method req) "POST")
  then mkRes cors 405 (ErrorOnly "Method not allowed") []
  else match try_block t_log t_res (body req) with
       | inr (code, out, logs) => mkRes cors code out logs
       | inl _ => mkRes cors 500 (Failure "Internal server error") [LogError]
       end.

End Api.

(** ** The React application (geometry helpers, [DraggableRect],
       [PhotoMeasure]) *)

Module App.

Module Pt.
Record t : Type := mk { x : R; y : R }.
End Pt.

Module Rect.
Record t : Type := mk { x : R; y : R; w : R; h : R }.
End Rect.

Module ImgSize.
Record t : Type := mk { w : R; h : R }.
End ImgSize.

(** [Math.max(min, Math.min(max, n))]. *)
Definition clamp (n min max : R) : R := Rmax min (Rmin max n).

(** [Math.hypot(a.x - b.x, a.y - b.y)]. *)
Definition dist (a b : Pt.t) : R :=
  let dx := Pt.x a - Pt.x b in
  let dy := Pt.y a - Pt.y b in
  sqrt (dx * dx + dy * dy).

(** The index type [0|1] of [setCorner]. *)
Inductive Ix : Type := I0 | I1.

(** *** DraggableRect *)

Module DraggableRect.

(** The component's refs: [bodyDown], [dragOrigin], [rectOrigin]. *)
Record Refs : Type := mkRefs
  { bodyDown : bool; dragOrigin : Pt.t; rectOrigin : Pt.t }.

(** The rectangle handed to [onChange] by [setCorner(ix, iy, p)]. *)
Definition setCorner (rect : Rect.t) (ix iy : Ix) (p : Pt.t) : Rect.t :=
  let x := Rect.x rect in
  let y := Rect.y rect in
  let w := Rect.w rect in
  let h := Rect.h rect in
  let nx := match ix with I0 => Rmin (Pt.x p) (x + w) | I1 => Rmax (Pt.x p) x end in
  let ny := match iy with I0 => Rmin (Pt.y p) (y + h) | I1 => Rmax (Pt.y p) y end in
  let left := match ix with I0 => nx | I1 => x end in
  let top := match iy with I0 => ny | I1 => y end in
  let right := match ix with I0 => x + w | I1 => nx end in
  let bottom := match iy with I0 => y + h | I1 => ny end in
  Rect.mk left top (right - left) (bottom - top).

(** Where the handle of corner [(ix, iy)] is drawn: [x] or [x + w],
    [y] or [y + h]. *)
Definition corner (rect : Rect.t) (ix iy : Ix) : Pt.t :=
  Pt.mk (match ix with I0 => Rect.x rect | I1 => Rect.x rect + Rect.w rect end)
        (match iy with I0 => Rect.y rect | I1 => Rect.y rect + Rect.h rect end).

Definition onBodyDown (rect : Rect.t) (pt : Pt.t) : Refs :=
  mkRefs true pt (Pt.mk (Rect.x rect) (Rect.y rect)).

(** The rectangle after [onBodyMove]: the one handed to [onChange], or
    the current one when the body is not held down. *)
Definition onBodyMove (bounds : option ImgSize.t) (rect : Rect.t)
    (refs : Refs) (pt : Pt.t) : Rect.t :=
  if negb (bodyDown refs) then rect
  else
    let w := Rect.w rect in
    let h := Rect.h rect in
    let dx := Pt.x pt - Pt.x (dragOrigin refs) in
    let dy := Pt.y pt - Pt.y (dragOrigin refs) in
    let nx := Pt.x (rectOrigin refs) + dx in
    let ny := Pt.y (rectOrigin refs) + dy in
    match bounds with
    | Some b =>
        Rect.mk (clamp nx 0 (Rmax 0 (ImgSize.w b - w)))
                (clamp ny 0 (Rmax 0 (ImgSize.h b - h))) w h
    | None => Rect.mk nx ny w h
    end.

Definition onBodyUp (refs : Refs) : Refs :=
  mkRefs false (dragOrigin refs) (rectOrigin refs).

(** The component with its four [CornerHandle]s, each with a [downRef]
    of its own, as one state.  [onChange] is [setTopRect] in the parent,
    and every handler reads the rectangle of the latest render: an event
    sees the rectangle the event before it produced.  The magnifier
    callbacks ([onDragStart], [onDragEnd], [onDragMove]) do not touch the
    rectangle and are left out. *)
Record Editor : Type := mkEditor
  { rect : Rect.t; refs : Refs; cornerDown : Ix -> Ix -> bool }.

Inductive Event : Type :=
| CornerDown (ix iy : Ix)
| CornerMove (ix iy : Ix) (p : Pt.t)
| CornerUp (ix iy : Ix)
| BodyDown (pt : Pt.t)
| BodyMove (pt : Pt.t)
| BodyUp.

Definition ix_eqb (a b : Ix) : bool :=
  match a, b with I0, I0 | I1, I1 => true | _, _ => false end.

Definition set_down (f : Ix -> Ix -> bool) (ix iy : Ix) (v : bool)
  : Ix -> Ix -> bool :=
  fun jx jy => if ix_eqb ix jx && ix_eqb iy jy then v else f jx jy.

(** First render: [bodyDown = false], [dragOrigin = {0,0}],
    [rectOrigin = {x, y}], no corner held. *)
Definition mount (r : Rect.t) : Editor :=
  mkEditor r (mkRefs false (Pt.mk 0 0) (Pt.mk (Rect.x r) (Rect.y r)))
           (fun _ _ => false).

Definition step (bounds : option ImgSize.t) (ed : Editor) (ev : Event) : Editor :=
  match ev with
  | CornerDown ix iy =>
      mkEditor (rect ed) (refs ed) (set_down (cornerDown ed) ix iy true)
  | CornerMove ix iy p =>
      if cornerDown ed ix iy
      then mkEditor (setCorner (rect ed) ix iy p) (refs ed) (cornerDown ed)
      else ed
  | CornerUp ix iy =>
      mkEditor (rect ed) (refs ed) (set_down (cornerDown ed) ix iy false)
  | BodyDown pt => mkEditor (rect ed) (onBodyDown (rect ed) pt) (cornerDown ed)
  | BodyMove pt =>
      mkEditor (onBodyMove bounds (rect ed) (refs ed) pt) (refs ed) (cornerDown ed)
  | BodyUp => mkEditor (rect ed) (onBodyUp (refs ed)) (cornerDown ed)
  end.

Definition run (bounds : option ImgSize.t) (ed : Editor) (evs : list Event)
  : Editor :=
  fold_left (step bounds) evs ed.

End DraggableRect.

(** *** PhotoMeasure: derived measurements *)

Definition topPxPerMM (topCalA topCalB : Pt.t) (topCalReal : R) : R :=
  let dpx := dist topCalA topCalB in
  if Js.gtb dpx 0 && Js.gtb topCalReal 0 then dpx / topCalReal else 0.

Definition sidePxPerMM (sideCalA sideCalB : Pt.t) (sideCalReal : R) : R :=
  let dpx := dist sideCalA sideCalB in
  if Js.gtb dpx 0 && Js.gtb sideCalReal 0 then dpx / sideCalReal else 0.

Definition topWmm (topRect : Rect.t) (topPxPerMM : R) : R :=
  Rect.w topRect / Js.or_else topPxPerMM 1.

Definition topHmm (topRect : Rect.t) (topPxPerMM : R) : R :=
  Rect.h topRect / Js.or_else topPxPerMM 1.

Definition lengthMM (topRect : Rect.t) (topPxPerMM : R) : R :=
  Rmax (topWmm topRect topPxPerMM) (topHmm topRect topPxPerMM).

Definition widthMM (topRect : Rect.t) (topPxPerMM : R) : R :=
  Rmin (topWmm topRect topPxPerMM) (topHmm topRect topPxPerMM).

Definition areaCM2 (topRect : Rect.t) (topPxPerMM : R) : R :=
  (lengthMM topRect topPxPerMM * widthMM topRect topPxPerMM) / 100.

Definition heightMM (sideHeightA sideHeightB : Pt.t) (sidePxPerMM : R) : R :=
  dist sideHeightA sideHeightB / Js.or_else sidePxPerMM 1.

(** *** PhotoMeasure: locker recommendation *)

(** [110.2] and [222.2] are the decimals of the source, exactly. *)
Definition LOCKER_SIZES (key : LockerKey) : Locker.Spec :=
  match key with
  | small  => Locker.mk 385 500 (1102 / 10) "SMALL"
  | medium => Locker.mk 385 500 (2222 / 10) "MEDIUM"
  | large  => Locker.mk 385 500 301 "LARGE"
  end.

(** [const ordered = ["small", "medium", "large"]]. *)
Definition ordered : list LockerKey := [small; medium; large].

Record RecommendResult : Type := mkResult
  { label : string; color : string; sizeKey : option LockerKey }.

Fixpoint scan (keys : list LockerKey) (htMM : R) : option RecommendResult :=
  match keys with
  | [] => None
  | key :: rest =>
      let spec := LOCKER_SIZES key in
      if Js.leb htMM (Locker.height spec)
      then Some (mkResult (Locker.label spec) "#36d399" (Some key))
      else scan rest htMM
  end.

Definition recommendLocker (lenMM widMM htMM : R) : RecommendResult :=
  let a := Rmin lenMM widMM in
  let b := Rmax lenMM widMM in
  let footprintFits :=
    Js.leb a (Locker.length (LOCKER_SIZES small))
    && Js.leb b (Locker.width (LOCKER_SIZES small)) in
  if negb footprintFits then mkResult "Too large for footprint" "#ff6b6b" None
  else match scan ordered htMM with
       | Some r => r
       | None => mkResult "Height exceeds LARGE" "#ffb020" None
       end.

(** *** Screen calibration: constants and the on-screen card *)

Definition CREDIT_CARD_WIDTH_MM : R := 85.60.

(** [CARD_SVG_PX = { w: 389, h: 246 }]. *)
Definition CARD_SVG_PX : ImgSize.t := ImgSize.mk 389 246.

Definition pxPerMMFromScreenScale (scale : R) : R :=
  (ImgSize.w CARD_SVG_PX * scale) / CREDIT_CARD_WIDTH_MM.

Module ScreenCalibration.

(** The scale [onDragResize(clientX)] hands to [setScale];
    [innerWidth] is [window.innerWidth]. *)
Definition onDragResize (innerWidth clientX : R) : R :=
  let distanceFromMiddle := Rabs (clientX - innerWidth / 2) in
  clamp ((distanceFromMiddle / ImgSize.w CARD_SVG_PX) * 2.0) 0.2 6.

Definition pxPerMM (scale : R) : R := pxPerMMFromScreenScale scale.

Definition ppi (devicePixelRatio scale : R) : R :=
  (pxPerMM scale * 25.4) * devicePixelRatio.

Definition ppm (devicePixelRatio scale : R) : R :=
  ppi devicePixelRatio scale / 0.0254.

(** The pointer handlers of the card row: [downRef] and the scale. *)
Record State : Type := mkState { downRef : bool; scale : R }.

Inductive Event : Type :=
| PointerDown (clientX : R)
| PointerMove (clientX : R)
| PointerUp.

Definition step (innerWidth : R) (s : State) (ev : Event) : State :=
  match ev with
  | PointerDown clientX => mkState true (onDragResize innerWidth clientX)
  | PointerMove clientX =>
      if downRef s then mkState (downRef s) (onDragResize innerWidth clientX)
      else s
  | PointerUp => mkState false (scale s)
  end.

Definition run (innerWidth : R) (s : State) (evs : list Event) : State :=
  fold_left (step innerWidth) evs s.

End ScreenCalibration.

(** *** Onboarding *)

Module Onboarding.

(** The titles of [steps]; the [body] texts are not read by any handler
    and are left out. *)
Definition steps : list string :=
  ["Welcome"; "Top view"; "Side view"; "Locker match"; "Tips"].

(** The overlay: [open] belongs to the parent, [step] to the component,
    which stays mounted while the overlay is closed.  The [tour_done]
    entry of [localStorage] is written by the buttons and read at the
    first render only; it is left out. *)
Record State : Type := mkState { open : bool; step : nat }.

Inductive Button : Type := Close | Skip | Back | Next | WatchDemo | Start.

(** The button is rendered: nothing is when the overlay is closed;
    [Back] needs [step > 0]; [Next] needs [step < steps.length - 1], and
    [WatchDemo] and [Start] take its place on the last step. *)
Definition rendered (s : State) (b : Button) : bool :=
  open s &&
  match b with
  | Close | Skip => true
  | Back => Nat.ltb 0 (step s)
  | Next => Nat.ltb (step s) (List.length steps - 1)
  | WatchDemo | Start => negb (Nat.ltb (step s) (List.length steps - 1))
  end.

(** A click on a rendered button.  [onClose] is [setTourOpen(false)] and
    [onReplayPhoto] closes the overlay as well. *)
Definition click (s : State) (b : Button) : State :=
  if negb (rendered s b) then s
  else match b with
       | Close | Skip | Start => mkState false (step s)
       | Back => mkState (open s) (step s - 1)
       | Next => mkState (open s) (step s + 1)
       | WatchDemo => mkState false 0
       end.

(** "Replay Tutorial" in the header: [setTourOpen(true)]. *)
Definition replay (s : State) : State := mkState true (step s).

(** The title the overlay shows, [steps[step].title]; [None] stands for
    the [TypeError] of reading [.title] of [undefined]. *)
Definition title (s : State) : option string := nth_error steps (step s).

End Onboarding.

(** *** RoundHandle: a line end point with throttled moves *)

Module RoundHandle.

(** [rafRef] holds the handle of the frame request that is outstanding,
    [next_handle] is the handle the browser gives out next. *)
Record State : Type := mkState
  { downRef : bool;
    rafRef : option positive;
    pendingRef : option Pt.t;
    next_handle : positive }.

(** The callbacks a handler invokes, in order. *)
Inductive Call : Type :=
| OnDragStart (p : Pt.t)
| OnDrag (p : Pt.t)
| OnDragMove (p : Pt.t)
| OnDragEnd.

Definition mount : State := mkState false None None 1%positive.

Definition flush (s : State) : State * list Call :=
  match pendingRef s with
  | Some p => (mkState (downRef s) None None (next_handle s), [OnDrag p; OnDragMove p])
  | None => (mkState (downRef s) None None (next_handle s), [])
  end.

Definition onDown (s : State) (p : Pt.t) : State * list Call :=
  (mkState true (rafRef s) (pendingRef s) (next_handle s), [OnDragStart p]).

Definition onMove (s : State) (p : Pt.t) : State * list Call :=
  if negb (downRef s) then (s, [])
  else match rafRef s with
       | None =>
           (mkState (downRef s) (Some (next_handle s)) (Some p)
                    (Pos.succ (next_handle s)), [])
       | Some id => (mkState (downRef s) (Some id) (Some p) (next_handle s), [])
       end.

(** [cancelAnimationFrame] withdraws the request, so that no frame runs
    [flush] until a move asks for one again. *)
Definition onUp (s : State) : State * list Call :=
  (mkState false None (pendingRef s) (next_handle s), [OnDragEnd]).

Inductive Event : Type :=
| PointerDown (p : Pt.t)
| PointerMove (p : Pt.t)
| PointerUp
| AnimationFrame.

(** An animation frame runs [flush] when a request is outstanding. *)
Definition step (s : State) (ev : Event) : State * list Call :=
  match ev with
  | PointerDown p => onDown s p
  | PointerMove p => onMove s p
  | PointerUp => onUp s
  | AnimationFrame =>
      match rafRef s with
      | Some _ => flush s
      | None => (s, [])
      end
  end.

Fixpoint run (s : State) (evs : list Event) : State * list Call :=
  match evs with
  | [] => (s, [])
  | ev :: rest =>
      let (s1, calls1) := step s ev in
      let (s2, calls2) := run s1 rest in
      (s2, (calls1 ++ calls2)%list)
  end.

End RoundHandle.

(** *** CalibrationLine: two handles on the end points [a] and [b] *)

Module CalibrationLine.

Inductive End_ : Type := EndA | EndB.

(** [onDrag] of the handle at [a] is [onChange(p, b)], of the handle at
    [b] it is [onChange(a, p)]; the parent stores both points. *)
Definition onDrag (which : End_) (line : Pt.t * Pt.t) (p : Pt.t) : Pt.t * Pt.t :=
  match which with
  | EndA => (p, snd line)
  | EndB => (fst line, p)
  end.

(** The line after the callbacks of one handle, in order. *)
Definition apply (which : End_) (line : Pt.t * Pt.t)
    (calls : list RoundHandle.Call) : Pt.t * Pt.t :=
  fold_left (fun l c => match c with
                        | RoundHandle.OnDrag p => onDrag which l p
                        | _ => l
                        end) calls line.

End CalibrationLine.

(** *** SVGMagnifier: where the lens is drawn *)

Module SVGMagnifier.

Definition mx (x r : R) (imgSize : ImgSize.t) : R :=
  clamp (x + r + 12) (r + 12) (ImgSize.w imgSize - r - 12).

Definition my (y r : R) (imgSize : ImgSize.t) : R :=
  clamp (y - r - 12) (r + 12) (ImgSize.h imgSize - r - 12).

(** Where the [transform] of the magnified image,
    [translate(mx - scale*x, my - scale*y) scale(scale)], puts the image
    point [q]: scaled first, then translated. *)
Definition shown_at (x y scale r : R) (imgSize : ImgSize.t) (q : Pt.t) : Pt.t :=
  Pt.mk (scale * Pt.x q + (mx x r imgSize - scale * x))
        (scale * Pt.y q + (my y r imgSize - scale * y)).

End SVGMagnifier.

(** *** PhotoMeasure: state, default placement and readiness *)

Module PhotoMeasure.

Record Top : Type := mkTop
  { topImgURL : option string;
    topImgSize : ImgSize.t;
    topCalA : Pt.t;
    topCalB : Pt.t;
    topCalReal : R;
    topRect : Rect.t;
    topPlaced : bool }.

Record Side : Type := mkSide
  { sideImgURL : option string;
    sideImgSize : ImgSize.t;
    sideCalA : Pt.t;
    sideCalB : Pt.t;
    sideCalReal : R;
    sideHeightA : Pt.t;
    sideHeightB : Pt.t;
    sidePlaced : bool }.

(** The [useState] initial values. *)
Definition initTop : Top :=
  mkTop None (ImgSize.mk 0 0) (Pt.mk 80 80) (Pt.mk 260 80)
        CREDIT_CARD_WIDTH_MM (Rect.mk 120 120 220 160) false.

Definition initSide : Side :=
  mkSide None (ImgSize.mk 0 0) (Pt.mk 80 80) (Pt.mk 260 80)
         CREDIT_CARD_WIDTH_MM (Pt.mk 180 120) (Pt.mk 180 260) false.

(** [!!url]: neither [null] nor the empty string. *)
Definition loaded (url : option string) : bool :=
  match url with
  | Some u => negb (String.eqb u "")
  | None => false
  end.

(** [onTopFile] in its two renders: [setTopImgURL(url)] at once, then,
    when [readNaturalSize] has resolved with [sz], [setTopImgSize(sz)]
    and [setTopPlaced(false)]. *)
Definition onTopFile_url (url : string) (s : Top) : Top :=
  mkTop (Some url) (topImgSize s) (topCalA s) (topCalB s) (topCalReal s)
        (topRect s) (topPlaced s).

Definition onTopFile_size (sz : ImgSize.t) (s : Top) : Top :=
  mkTop (topImgURL s) sz (topCalA s) (topCalB s) (topCalReal s) (topRect s) false.

Definition onSideFile_url (url : string) (s : Side) : Side :=
  mkSide (Some url) (sideImgSize s) (sideCalA s) (sideCalB s) (sideCalReal s)
         (sideHeightA s) (sideHeightB s) (sidePlaced s).

Definition onSideFile_size (sz : ImgSize.t) (s : Side) : Side :=
  mkSide (sideImgURL s) sz (sideCalA s) (sideCalB s) (sideCalReal s)
         (sideHeightA s) (sideHeightB s) false.

(** The effect that centres the tools once the image size is known. *)
Definition placeTop (s : Top) : Top :=
  let w := ImgSize.w (topImgSize s) in
  let h := ImgSize.h (topImgSize s) in
  if loaded (topImgURL s) && Js.gtb w 0 && Js.gtb h 0 && negb (topPlaced s)
  then
    let cx := w / 2 in
    let cy := h / 2 in
    let len := Rmin w h * 0.3 in
    let rw := w * 0.45 in
    let rh := h * 0.35 in
    mkTop (topImgURL s) (topImgSize s)
          (Pt.mk (cx - len / 2) cy) (Pt.mk (cx + len / 2) cy)
          (topCalReal s)
          (Rect.mk (cx - rw / 2) (cy - rh / 2) rw rh)
          true
  else s.

Definition placeSide (s : Side) : Side :=
  let w := ImgSize.w (sideImgSize s) in
  let h := ImgSize.h (sideImgSize s) in
  if loaded (sideImgURL s) && Js.gtb w 0 && Js.gtb h 0 && negb (sidePlaced s)
  then
    let cx := w / 2 in
    let cy := h / 2 in
    let len := Rmin w h * 0.3 in
    mkSide (sideImgURL s) (sideImgSize s)
           (Pt.mk (cx - len / 2) cy) (Pt.mk (cx + len / 2) cy)
           (sideCalReal s)
           (Pt.mk cx (cy - len / 2)) (Pt.mk cx (cy + len / 2))
           true
  else s.

(** The derived values of a render. *)
Definition top_scale (s : Top) : R :=
  topPxPerMM (topCalA s) (topCalB s) (topCalReal s).

Definition side_scale (s : Side) : R :=
  sidePxPerMM (sideCalA s) (sideCalB s) (sideCalReal s).

Definition length_of (s : Top) : R := lengthMM (topRect s) (top_scale s).
Definition width_of (s : Top) : R := widthMM (topRect s) (top_scale s).
Definition height_of (s : Side) : R :=
  heightMM (sideHeightA s) (sideHeightB s) (side_scale s).

(** [Number.isFinite] asks whether the double that the code computed
    is finite.  A quotient that is a real number here can overflow there,
    so the model does not decide the answer: the readiness tests take the
    verdict as a parameter, and what is proved of them holds whatever the
    verdict is. *)
Section Readiness.

Variable isFinite : R -> bool.

Definition stepDoneTop (s : Top) : bool :=
  isFinite (length_of s) && isFinite (width_of s)
  && Js.gtb (length_of s) 0 && Js.gtb (width_of s) 0
  && loaded (topImgURL s).

Definition stepDoneSide (s : Side) : bool :=
  isFinite (height_of s) && Js.gtb (height_of s) 0 && loaded (sideImgURL s).

End Readiness.

(** [const rec = recommendLocker(lengthMM, widthMM, heightMM)]. *)
Definition rec (t : Top) (s : Side) : RecommendResult :=
  recommendLocker (length_of t) (width_of t) (height_of s).

End PhotoMeasure.

End App.

(** ** The scale expression over binary64 *)

Module Binary64.


End Binary64.

(** ** Vocabulary of the statements *)

(** The test both loops make on a tier. *)
Definition admits (table : LockerKey -> Locker.Spec) (ht : R) (key : LockerKey) : bool :=
  Js.leb ht (Locker.height (table key)).

(** What each loop returns when it stops at [key]. *)
Definition api_hit (lenMM widMM htMM : R) (key : LockerKey) : Api.LockerRecommendation :=
  let spec := Api.LOCKER_SIZES key in
  Api.mkRec (Locker.label spec) true (Api.mkDims lenMM widMM htMM)
            (Api.specs_of spec)
            (Api.FitsIn (Locker.label spec) htMM (Locker.height spec)).

Definition app_hit (key : LockerKey) : App.RecommendResult :=
  App.mkResult (Locker.label (App.LOCKER_SIZES key)) "#36d399" (Some key).

(** The other end of an axis. *)
Definition flip (i : App.Ix) : App.Ix :=
  match i with App.I0 => App.I1 | App.I1 => App.I0 end.

(** The rectangle lies within [[0, imageWidth] x [0, imageHeight]]. *)
Definition within (image : App.ImgSize.t) (r : App.Rect.t) : Prop :=
  0 <= App.Rect.x r /\ 0 <= App.Rect.y r
  /\ App.Rect.x r + App.Rect.w r <= App.ImgSize.w image
  /\ App.Rect.y r + App.Rect.h r <= App.ImgSize.h image.

(** The tiers in the order of their height limits, and after them the
    answers without a locker. *)
Definition tier_rank (k : option LockerKey) : nat :=
  match k with
  | Some small => 0
  | Some medium => 1
  | Some large => 2
  | None => 3
  end.

(** A pointer-down on a corner handle or on the body. *)
Definition is_press (ev : App.DraggableRect.Event) : bool :=
  match ev with
  | App.DraggableRect.CornerDown _ _ | App.DraggableRect.BodyDown _ => true
  | _ => false
  end.

(** The point lies within the image. *)
Definition inside (image : App.ImgSize.t) (p : App.Pt.t) : Prop :=
  0 <= App.Pt.x p <= App.ImgSize.w image
  /\ 0 <= App.Pt.y p <= App.ImgSize.h image.

(** A pointer move or an animation frame: no button goes down or up. *)
Definition hovering (ev : App.RoundHandle.Event) : bool :=
  match ev with
  | App.RoundHandle.PointerMove _ | App.RoundHandle.AnimationFrame => true
  | _ => false
  end.

(** What a user does to the tour: a click on one of its buttons, or
    "Replay Tutorial" in the header ([None]). *)
Definition tour_act (s : App.Onboarding.State) (a : option App.Onboarding.Button)
  : App.Onboarding.State :=
  match a with
  | Some b => App.Onboarding.click s b
  | None => App.Onboarding.replay s
  end.

(** Corner moves keep the pointer within the image. *)
Definition pointer_inside (image : App.ImgSize.t) (ev : App.DraggableRect.Event)
  : Prop :=
  match ev with
  | App.DraggableRect.CornerMove _ _ p => inside image p
  | _ => True
  end.

(** * Properties *)

(** ** Number operators *)

Lemma leb_true_iff (x y : R) : Js.leb x y = true <-> x <= y.
Proof. unfold Js.leb; destruct (Rle_dec x y); split; intros; congruence || lra. Qed.

Lemma leb_false_iff (x y : R) : Js.leb x y = false <-> y < x.
Proof. unfold Js.leb; destruct (Rle_dec x y); split; intros; congruence || lra. Qed.

Lemma gtb_true_iff (x y : R) : Js.gtb x y = true <-> y < x.
Proof. unfold Js.gtb; destruct (Rlt_dec y x); split; intros; congruence || lra. Qed.

Lemma gtb_false_iff (x y : R) : Js.gtb x y = false <-> x <= y.
Proof. unfold Js.gtb; destruct (Rlt_dec y x); split; intros; congruence || lra. Qed.

Lemma or_else_zero (d : R) : Js.or_else 0 d = d.
Proof.
  unfold Js.or_else, Js.truthy.
  destruct (Req_dec_T 0 0) as [_ | ne]; [reflexivity | exfalso; apply ne; reflexivity].
Qed.

Lemma or_else_nonzero (x d : R) : x <> 0 -> Js.or_else x d = x.
Proof.
  intros ne. unfold Js.or_else, Js.truthy.
  destruct (Req_dec_T x 0); [contradiction | reflexivity].
Qed.

(** Splits on one comparison the goal branches on and records its
    outcome as a hypothesis on the reals. *)
Ltac split_cmp :=
  match goal with
  | |- context [Js.leb ?a ?b] =>
      let E := fresh "E" in
      destruct (Js.leb a b) eqn:E;
      [apply leb_true_iff in E | apply leb_false_iff in E]
  | |- context [Js.gtb ?a ?b] =>
      let E := fresh "E" in
      destruct (Js.gtb a b) eqn:E;
      [apply gtb_true_iff in E | apply gtb_false_iff in E]
  end.

(** Orders the two arguments of every [Rmin]/[Rmax] in sight. *)
Ltac split_minmax :=
  unfold Rmin, Rmax in *;
  repeat match goal with
  | |- context [Rle_dec ?a ?b] => destruct (Rle_dec a b)
  | H : context [Rle_dec ?a ?b] |- _ => destruct (Rle_dec a b)
  end.

(** ** The locker recommendation *)

Section Recommendation.

Variables lenMM widMM htMM : R.

(** Each loop returns at the first key, in list order, that admits the
    height. *)
Lemma api_scan_find (keys : list LockerKey) :
  Api.scan keys lenMM widMM htMM
  = option_map (api_hit lenMM widMM htMM) (find (admits Api.LOCKER_SIZES htMM) keys).
Proof.
  induction keys as [| key rest IH]; simpl.
  - reflexivity.
  - unfold admits at 1. destruct (Js.leb htMM _); [reflexivity | exact IH].
Qed.

Lemma app_scan_find (keys : list LockerKey) :
  App.scan keys htMM
  = option_map app_hit (find (admits App.LOCKER_SIZES htMM) keys).
Proof.
  induction keys as [| key rest IH]; simpl.
  - reflexivity.
  - unfold admits at 1. destruct (Js.leb htMM _); [reflexivity | exact IH].
Qed.

(** A hit is preceded only by keys whose limit the height exceeds. *)
Lemma find_first (table : LockerKey -> Locker.Spec) (keys : list LockerKey)
    (key : LockerKey) :
  find (admits table htMM) keys = Some key ->
  exists before after,
    keys = (before ++ key :: after)%list
    /\ htMM <= Locker.height (table key)
    /\ Forall (fun k => Locker.height (table k) < htMM) before.
Proof.
  induction keys as [| k rest IH]; simpl; intros Hfind.
  - discriminate.
  - destruct (admits table htMM k) eqn:E.
    + injection Hfind as ->. exists [], rest.
      repeat split; [ now apply leb_true_iff | constructor ].
    + destruct (IH Hfind) as (before & after & -> & Hle & Hall).
      exists (k :: before), after.
      repeat split; [ exact Hle | constructor; [ now apply leb_false_iff | exact Hall ] ].
Qed.

Lemma find_none_all (table : LockerKey -> Locker.Spec) (keys : list LockerKey) :
  find (admits table htMM) keys = None ->
  Forall (fun k => Locker.height (table k) < htMM) keys.
Proof.
  induction keys as [| k rest IH]; simpl; intros Hfind.
  - constructor.
  - destruct (admits table htMM k) eqn:E; [discriminate |].
    constructor; [ now apply leb_false_iff | exact (IH Hfind) ].
Qed.

End Recommendation.

Lemma tables_agree (key : LockerKey) : Api.LOCKER_SIZES key = App.LOCKER_SIZES key.
Proof. destruct key; reflexivity. Qed.

(** Over any list of tiers the two loops stop at the same tier, or both
    run to the end. *)
Lemma scans_agree (keys : list LockerKey) (lenMM widMM htMM : R) :
  option_map Api.size (Api.scan keys lenMM widMM htMM)
  = option_map App.label (App.scan keys htMM).
Proof.
  induction keys as [| key rest IH]; cbn [Api.scan App.scan].
  - reflexivity.
  - rewrite <- (tables_agree key).
    destruct (Js.leb htMM _); [reflexivity | exact IH].
Qed.

(** The tier the application's copy answers with admits the height, and
    every tier tried before it does not. *)
Lemma app_tier_is_first (lenMM widMM htMM : R) (key : LockerKey) :
  App.sizeKey (App.recommendLocker lenMM widMM htMM) = Some key ->
  exists before after,
    App.ordered = (before ++ key :: after)%list
    /\ htMM <= Locker.height (App.LOCKER_SIZES key)
    /\ Forall (fun k => Locker.height (App.LOCKER_SIZES k) < htMM) before.
Proof.
  unfold App.recommendLocker. cbv zeta.
  destruct (negb _); [discriminate |].
  rewrite app_scan_find.
  destruct (find _ App.ordered) as [k |] eqn:Hfind; cbn; [| discriminate].
  intros [= ->]. exact (find_first htMM App.LOCKER_SIZES App.ordered key Hfind).
Qed.

(** When the footprint fits and no tier is returned, the height exceeds
    every limit. *)
Lemma app_no_tier_exceeds_all (lenMM widMM htMM : R) :
  App.label (App.recommendLocker lenMM widMM htMM) = "Height exceeds LARGE" ->
  Forall (fun k => Locker.height (App.LOCKER_SIZES k) < htMM) App.ordered.
Proof.
  unfold App.recommendLocker. cbv zeta.
  destruct (negb _); [discriminate |].
  rewrite app_scan_find.
  destruct (find _ App.ordered) as [k |] eqn:Hfind; cbn.
  - destruct k; discriminate.
  - intros _. exact (find_none_all htMM App.LOCKER_SIZES App.ordered Hfind).
Qed.

(** The footprint test of both copies, on the reals. *)
Lemma footprint_test (l w : R) :
  Js.leb (Rmin l w) 385 && Js.leb (Rmax l w) 500 = true
  <-> Rmin l w <= 385 /\ Rmax l w <= 500.
Proof.
  rewrite andb_true_iff, !leb_true_iff. reflexivity.
Qed.

Example decimal_literal : 110.2 = 1102 / 10 /\ 222.2 = 2222 / 10.
Proof. split; lra. Qed.

(** Unfolds both copies of [recommendLocker] down to the comparisons
    they branch on. *)
Ltac unfold_recommend :=
  cbv beta iota zeta delta
    [Api.recommendLocker Api.scan Api.ordered Api.LOCKER_SIZES Api.specs_of
     App.recommendLocker App.scan App.ordered App.LOCKER_SIZES
     Locker.length Locker.width Locker.height Locker.label].

(** Decides a goal about [recommendLocker] by running through the
    comparisons of the code, in order. *)
Ltac run_recommend :=
  unfold_recommend;
  repeat (split_cmp; cbn [negb andb]);
  cbn [Api.size Api.fits Api.lockerSpecs App.label App.sizeKey App.color];
  try (split_minmax; lra);
  auto.

(** C1. [recommendLocker] first tests the footprint on [a = min] and
    [b = max] of its first two arguments: unless [a <= 385] and
    [b <= 500] the answer is TOO_LARGE with [fits = false], whatever the
    height.  Otherwise the tiers are tried in the order SMALL, MEDIUM,
    LARGE and the first whose height limit (110.2, 222.2, 301) is at least
    the height is returned with [fits = true], limits inclusive; a height
    above 301 gives TOO_TALL with [fits = false].  The copy in the
    application takes the same decisions (it has labels and a [sizeKey]
    where the handler's copy has [size] and [fits]). *)
Theorem recommendLocker_classifies (lengthMM widthMM heightMM : R) :
  let a := Rmin lengthMM widthMM in
  let b := Rmax lengthMM widthMM in
  let r := Api.recommendLocker lengthMM widthMM heightMM in
  let u := App.recommendLocker lengthMM widthMM heightMM in
  (~ (a <= 385 /\ b <= 500) ->
     Api.size r = "TOO_LARGE" /\ Api.fits r = false
     /\ App.label u = "Too large for footprint" /\ App.sizeKey u = None)
  /\ (a <= 385 /\ b <= 500 ->
      (heightMM <= 110.2 ->
         Api.size r = "SMALL" /\ Api.fits r = true
         /\ App.label u = "SMALL" /\ App.sizeKey u = Some small)
      /\ (110.2 < heightMM -> heightMM <= 222.2 ->
         Api.size r = "MEDIUM" /\ Api.fits r = true
         /\ App.label u = "MEDIUM" /\ App.sizeKey u = Some medium)
      /\ (222.2 < heightMM -> heightMM <= 301 ->
         Api.size r = "LARGE" /\ Api.fits r = true
         /\ App.label u = "LARGE" /\ App.sizeKey u = Some large)
      /\ (301 < heightMM ->
         Api.size r = "TOO_TALL" /\ Api.fits r = false
         /\ App.label u = "Height exceeds LARGE" /\ App.sizeKey u = None)).
Proof.
  intros a b r u. subst a b r u. split.
  - intros Hno.
    assert (Hfp : Js.leb (Rmin lengthMM widthMM) 385
                  && Js.leb (Rmax lengthMM widthMM) 500 = false).
    { apply not_true_is_false. intros Hyes. apply Hno.
      now apply footprint_test. }
    unfold_recommend. rewrite Hfp. cbn. auto.
  - intros Hfp. apply footprint_test in Hfp.
    unfold_recommend. rewrite Hfp. cbn [negb].
    repeat split; intros; run_recommend.
Qed.

(** Inside the footprint, the handler's copy answers with the first tier
    of [small; medium; large] that admits the height, and with TOO_TALL
    when none does. *)
Lemma api_recommend_first_tier (lenMM widMM htMM : R) :
  Rmin lenMM widMM <= 385 -> Rmax lenMM widMM <= 500 ->
  Api.recommendLocker lenMM widMM htMM
  = match find (admits Api.LOCKER_SIZES htMM) [small; medium; large] with
    | Some key => api_hit lenMM widMM htMM key
    | None =>
        Api.mkRec "TOO_TALL" false (Api.mkDims lenMM widMM htMM)
                  (Api.mkDims 385 500 301) (Api.HeightExceeds htMM 301)
    end.
Proof.
  intros Ha Hb. unfold Api.recommendLocker.
  change (Locker.length (Api.LOCKER_SIZES small)) with 385.
  change (Locker.width (Api.LOCKER_SIZES small)) with 500.
  rewrite (proj2 (footprint_test lenMM widMM) (conj Ha Hb)). cbn [negb].
  rewrite api_scan_find. unfold Api.ordered.
  destruct (find _ _); reflexivity.
Qed.

(** The handler's copy at boundary inputs: heights on and next to a
    limit, and a 400 x 180 footprint (min 180 <= 385, max 400 <= 500). *)
Example recommend_boundary_cases :
  Api.size (Api.recommendLocker 250 180 95.8) = "SMALL"
  /\ Api.fits (Api.recommendLocker 250 180 95.8) = true
  /\ Api.size (Api.recommendLocker 250 180 110.2) = "SMALL"
  /\ Api.size (Api.recommendLocker 250 180 110.3) = "MEDIUM"
  /\ Api.size (Api.recommendLocker 250 180 301) = "LARGE"
  /\ Api.size (Api.recommendLocker 250 180 301.1) = "TOO_TALL"
  /\ Api.fits (Api.recommendLocker 250 180 301.1) = false
  /\ Api.size (Api.recommendLocker 400 180 50) = "SMALL".
Proof. repeat split; run_recommend. Qed.

(** C9. [recommendLocker] does not tell its first two arguments apart:
    swapping them leaves the classification unchanged (in the handler's
    copy [size], [fits], [lockerSpecs] and [reason]; only the echoed
    [dimensions] follow the arguments; in the application's copy the
    whole result).  In particular (500, 385, 50) is SMALL, as the footprint
    has min 385 <= 385 and max 500 <= 500. *)
Theorem recommendLocker_symmetric (lengthMM widthMM heightMM : R) :
  let r := Api.recommendLocker lengthMM widthMM heightMM in
  let r' := Api.recommendLocker widthMM lengthMM heightMM in
  Api.size r = Api.size r'
  /\ Api.fits r = Api.fits r'
  /\ Api.lockerSpecs r = Api.lockerSpecs r'
  /\ Api.reason r = Api.reason r'
  /\ App.recommendLocker lengthMM widthMM heightMM
     = App.recommendLocker widthMM lengthMM heightMM
  /\ Api.size (Api.recommendLocker 500 385 50) = "SMALL"
  /\ Api.fits (Api.recommendLocker 500 385 50) = true
  /\ App.label (App.recommendLocker 500 385 50) = "SMALL"
  /\ Rmin 500 385 = 385 /\ Rmax 500 385 = 500.
Proof.
  cbv zeta.
  unfold Api.recommendLocker, App.recommendLocker.
  rewrite (Rmin_comm widthMM lengthMM), (Rmax_comm widthMM lengthMM).
  repeat split.
  1-4: destruct (negb _); [reflexivity |];
       unfold Api.ordered; cbn [Api.scan];
       repeat (split_cmp; try reflexivity).
  all: try (run_recommend; fail).
  all: split_minmax; lra.
Qed.

(** C10. The two copies of [recommendLocker] classify every triple alike:
    TOO_LARGE in the handler exactly when the application says "Too large
    for footprint"; a tier label in the handler exactly when the
    application returns that tier (its label and its [sizeKey]); TOO_TALL
    exactly when the application says "Height exceeds LARGE". *)
Theorem recommendLocker_copies_agree (lengthMM widthMM heightMM : R) :
  let r := Api.recommendLocker lengthMM widthMM heightMM in
  let u := App.recommendLocker lengthMM widthMM heightMM in
  (Api.size r = "TOO_LARGE" <-> App.label u = "Too large for footprint")
  /\ (forall key : LockerKey,
        Api.size r = Locker.label (Api.LOCKER_SIZES key)
        <-> App.label u = Locker.label (App.LOCKER_SIZES key))
  /\ (forall key : LockerKey,
        Api.size r = Locker.label (Api.LOCKER_SIZES key)
        <-> App.sizeKey u = Some key)
  /\ (Api.size r = "TOO_TALL" <-> App.label u = "Height exceeds LARGE")
  /\ (Api.fits r = true <-> exists key, App.sizeKey u = Some key).
Proof.
  cbv zeta. unfold_recommend.
  destruct (negb _); [| repeat split_cmp];
    cbn [Api.size Api.fits App.label App.sizeKey];
    repeat match goal with
           | |- _ /\ _ => split
           | |- forall key : LockerKey, _ => intros [| |]
           end;
    cbn; split; intros H;
    try reflexivity; try discriminate H; try (destruct H; discriminate);
    eauto.
Qed.

(** ** The HTTP handler *)

Section Handler.

Variables t_log t_res : string.

Lemma handler_options (req : Api.Request) :
  Api.method req = "OPTIONS" ->
  Api.handler t_log t_res req = Api.mkRes Api.cors 200 Api.End_ [].
Proof.
  intros Hm. unfold Api.handler. rewrite Hm. reflexivity.
Qed.

Lemma handler_other_method (req : Api.Request) :
  Api.method req <> "OPTIONS" -> Api.method req <> "POST" ->
  Api.handler t_log t_res req
  = Api.mkRes Api.cors 405 (Api.ErrorOnly "Method not allowed") [].
Proof.
  intros Ho Hp. unfold Api.handler.
  apply String.eqb_neq in Ho, Hp. rewrite Ho, Hp. reflexivity.
Qed.

Lemma handler_post (req : Api.Request) :
  Api.method req = "POST" ->
  Api.handler t_log t_res req
  = match Api.try_block t_log t_res (Api.body req) with
    | inr (code, out, logs) => Api.mkRes Api.cors code out logs
    | inl _ => Api.mkRes Api.cors 500 (Api.Failure "Internal server error")
                         [Api.LogError]
    end.
Proof.
  intros Hm. unfold Api.handler. rewrite Hm. reflexivity.
Qed.

(** The destructuring of a body that is there never throws. *)
Lemma destructure_present (body : Api.JsValue) :
  body <> Api.JUndefined -> body <> Api.JNull ->
  Api.destructure body
  = inr (Api.get body "measurements", Api.get body "metadata").
Proof.
  intros Hu Hn. destruct body; try reflexivity; contradiction.
Qed.

Lemma destructure_absent (body : Api.JsValue) :
  body = Api.JUndefined \/ body = Api.JNull ->
  Api.try_block t_log t_res body = inl Api.TypeError.
Proof.
  intros [-> | ->]; reflexivity.
Qed.

Ltac failure_400 := split; [reflexivity | eexists; reflexivity].

(** C3 (amended). OPTIONS is answered 200 with an empty body; every
    method other than POST and OPTIONS is answered 405.  A POST whose
    body is there (neither undefined nor null) is answered 400 with
    [{success:false, error}] when [measurements] is missing or falsy, or
    one of [length_mm], [width_mm], [height_mm] is missing or not a
    number, or one of them is not strictly positive; and 200 with
    [success:true] and the result of [recommendLocker] on the three
    numbers when all three are strictly positive. *)
Theorem handler_responses (req : Api.Request) :
  let res := Api.handler t_log t_res req in
  let m := Api.get (Api.body req) "measurements" in
  (Api.method req = "OPTIONS" ->
     Api.status res = 200%nat /\ Api.payload res = Api.End_)
  /\ (Api.method req <> "POST" -> Api.method req <> "OPTIONS" ->
     Api.status res = 405%nat)
  /\ (Api.method req = "POST" ->
      Api.body req <> Api.JUndefined -> Api.body req <> Api.JNull ->
      (Api.truthy m = false
       \/ Api.as_number (Api.get m "length_mm") = None
       \/ Api.as_number (Api.get m "width_mm") = None
       \/ Api.as_number (Api.get m "height_mm") = None ->
       Api.status res = 400%nat /\ exists e, Api.payload res = Api.Failure e)
      /\ (forall l w h : R,
            Api.truthy m = true ->
            Api.as_number (Api.get m "length_mm") = Some l ->
            Api.as_number (Api.get m "width_mm") = Some w ->
            Api.as_number (Api.get m "height_mm") = Some h ->
            (l <= 0 \/ w <= 0 \/ h <= 0 ->
             Api.status res = 400%nat
             /\ exists e, Api.payload res = Api.Failure e)
            /\ (0 < l -> 0 < w -> 0 < h ->
                Api.status res = 200%nat
                /\ Api.payload res
                   = Api.Success (Api.recommendLocker l w h) t_res))).
Proof.
  cbv zeta. split; [| split].
  - intros Hm. rewrite (handler_options req Hm). split; reflexivity.
  - intros Hp Ho. rewrite (handler_other_method req Ho Hp). reflexivity.
  - intros Hm Hu Hn. rewrite (handler_post req Hm).
    unfold Api.try_block. rewrite (destructure_present _ Hu Hn).
    set (m := Api.get (Api.body req) "measurements").
    split.
    + intros Hbad.
      destruct (Api.truthy m); cbn [negb].
      * destruct Hbad as [Hf | [Hl | [Hw | Hh]]]; [discriminate Hf | | |].
        -- rewrite Hl. cbn. failure_400.
        -- rewrite Hw.
           destruct (Api.as_number (Api.get m "length_mm")); cbn; failure_400.
        -- rewrite Hh.
           destruct (Api.as_number (Api.get m "length_mm"));
             destruct (Api.as_number (Api.get m "width_mm")); cbn; failure_400.
      * cbn. failure_400.
    + intros l w h Ht Hl Hw Hh. rewrite Ht, Hl, Hw, Hh. cbn [negb].
      split.
      * intros Hneg.
        assert (E : Js.leb l 0 || Js.leb w 0 || Js.leb h 0 = true).
        { rewrite !orb_true_iff, !leb_true_iff. tauto. }
        rewrite E. cbn. failure_400.
      * intros Hl0 Hw0 Hh0.
        assert (E : Js.leb l 0 || Js.leb w 0 || Js.leb h 0 = false).
        { rewrite !orb_false_iff, !leb_false_iff. tauto. }
        rewrite E. cbn. split; reflexivity.
Qed.

End Handler.

(** A request as in the API guide, and three that are turned down. *)
Example handler_on_requests :
  let m l w h := Api.JObject [("length_mm", Api.JNumber l);
                              ("width_mm", Api.JNumber w);
                              ("height_mm", Api.JNumber h)] in
  let post v := Api.mkReq "POST" (Api.JObject [("measurements", v)]) in
  Api.payload (Api.handler "t0" "t1" (post (m 250.5 180.2 95.8)))
  = Api.Success (Api.recommendLocker 250.5 180.2 95.8) "t1"
  /\ Api.size (Api.recommendLocker 250.5 180.2 95.8) = "SMALL"
  /\ Api.status (Api.handler "t0" "t1" (post (m (-1) 180.2 95.8))) = 400%nat
  /\ Api.status (Api.handler "t0" "t1"
        (post (Api.JObject [("length_mm", Api.JString "250")]))) = 400%nat
  /\ Api.status (Api.handler "t0" "t1" (Api.mkReq "GET" Api.JUndefined)) = 405%nat.
Proof.
  cbv zeta. repeat split.
  - cbv [Api.handler Api.try_block Api.destructure Api.get Api.lookup Api.truthy
         Api.as_number Api.method Api.body String.eqb Ascii.eqb Bool.eqb negb].
    repeat (split_cmp; try lra). reflexivity.
  - run_recommend.
  - cbv [Api.handler Api.try_block Api.destructure Api.get Api.lookup Api.truthy
         Api.as_number Api.method Api.body String.eqb Ascii.eqb Bool.eqb negb].
    repeat (split_cmp; try lra); reflexivity.
Qed.

(** C3, as stated, fails at the CORS preflight: OPTIONS is not POST and
    is answered 200, not 405. *)
Lemma handler_options_not_405 :
  String.eqb "OPTIONS" "POST" = false
  /\ Api.status (Api.handler "t0" "t1" (Api.mkReq "OPTIONS" Api.JUndefined))
     = 200%nat
  /\ Nat.eqb 200 405 = false.
Proof. repeat split. Qed.

(** X27. A POST that carries no body at all makes the destructuring
    throw and is answered 500 with [{success:false, error}]; the error is
    logged. *)
Lemma handler_post_without_body (t_log t_res : string) (body : Api.JsValue) :
  body = Api.JUndefined \/ body = Api.JNull ->
  Api.handler t_log t_res (Api.mkReq "POST" body)
  = Api.mkRes Api.cors 500 (Api.Failure "Internal server error") [Api.LogError].
Proof.
  intros Habsent. rewrite handler_post by reflexivity.
  cbn [Api.body]. rewrite (destructure_absent t_log t_res body Habsent).
  reflexivity.
Qed.

(** ** Geometry helpers *)

Lemma clamp_bounds (n lo hi : R) :
  lo <= hi -> lo <= App.clamp n lo hi <= hi.
Proof. intros Hle. unfold App.clamp. split_minmax; lra. Qed.

(** With an upper end below the lower one, [clamp] answers the lower
    end. *)
Lemma clamp_crossed (n lo hi : R) :
  hi <= lo -> App.clamp n lo hi = lo.
Proof. intros Hle. unfold App.clamp. split_minmax; lra. Qed.

Lemma dist_nonneg (a b : App.Pt.t) : 0 <= App.dist a b.
Proof. unfold App.dist. apply sqrt_pos. Qed.

Lemma dist_same (a : App.Pt.t) : App.dist a a = 0.
Proof.
  unfold App.dist. cbv zeta.
  replace ((App.Pt.x a - App.Pt.x a) * (App.Pt.x a - App.Pt.x a)
           + (App.Pt.y a - App.Pt.y a) * (App.Pt.y a - App.Pt.y a)) with 0 by ring.
  apply sqrt_0.
Qed.

Lemma dist_zero_iff (a b : App.Pt.t) : App.dist a b = 0 <-> a = b.
Proof.
  split.
  - destruct a as [ax ay], b as [bx by_].
    unfold App.dist. cbn. intros Hz.
    assert (Hnn : 0 <= Rsqr (ax - bx) + Rsqr (ay - by_))
      by (apply Rplus_le_le_0_compat; apply Rle_0_sqr).
    destruct (Rplus_sqr_eq_0 _ _ (sqrt_eq_0 _ Hnn Hz)) as [Hx Hy].
    f_equal; lra.
  - intros ->. apply dist_same.
Qed.

(** ** The scale of a photo *)

(** Both scales are the same expression. *)
Lemma sidePxPerMM_is_topPxPerMM (a b : App.Pt.t) (real : R) :
  App.sidePxPerMM a b real = App.topPxPerMM a b real.
Proof. reflexivity. Qed.

Lemma pxPerMM_cases (a b : App.Pt.t) (real : R) :
  (0 < App.dist a b /\ 0 < real
   /\ App.topPxPerMM a b real = App.dist a b / real)
  \/ ((App.dist a b = 0 \/ real <= 0) /\ App.topPxPerMM a b real = 0).
Proof.
  unfold App.topPxPerMM. cbv zeta.
  pose proof (dist_nonneg a b) as Hd.
  repeat (split_cmp; cbn [andb]).
  - left. repeat split; assumption || reflexivity.
  - right. split; [right; assumption | reflexivity].
  - right. split; [left; lra | reflexivity].
Qed.



(** ** Measurements derived from the scale *)

Lemma or_else_one_nonzero (scale : R) : Js.or_else scale 1 <> 0.
Proof.
  unfold Js.or_else, Js.truthy.
  destruct (Req_dec_T scale 0); [lra | assumption].
Qed.

Lemma div_one (r : R) : r / 1 = r.
Proof. unfold Rdiv. rewrite Rinv_1. ring. Qed.

(** C5. With a positive scale, the two extents of the rectangle are
    divided by it and then sorted: [lengthMM] is the larger and [widthMM]
    the smaller quotient, so [lengthMM >= widthMM] however the rectangle
    is oriented, and [areaCM2 = (lengthMM * widthMM) / 100]. *)
Theorem top_face_sorted (topRect : App.Rect.t) (pxPerMM : R) :
  0 < pxPerMM ->
  let w := App.Rect.w topRect in
  let h := App.Rect.h topRect in
  App.lengthMM topRect pxPerMM >= App.widthMM topRect pxPerMM
  /\ App.areaCM2 topRect pxPerMM
     = (App.lengthMM topRect pxPerMM * App.widthMM topRect pxPerMM) / 100
  /\ App.lengthMM topRect pxPerMM = Rmax (w / pxPerMM) (h / pxPerMM)
  /\ App.widthMM topRect pxPerMM = Rmin (w / pxPerMM) (h / pxPerMM)
  /\ App.lengthMM (App.Rect.mk (App.Rect.x topRect) (App.Rect.y topRect) h w) pxPerMM
     = App.lengthMM topRect pxPerMM
  /\ App.widthMM (App.Rect.mk (App.Rect.x topRect) (App.Rect.y topRect) h w) pxPerMM
     = App.widthMM topRect pxPerMM.
Proof.
  intros Hpos w h. subst w h.
  unfold App.areaCM2, App.lengthMM, App.widthMM, App.topWmm, App.topHmm.
  cbn [App.Rect.w App.Rect.h].
  rewrite (or_else_nonzero pxPerMM 1) by lra.
  repeat split; try reflexivity.
  - split_minmax; lra.
  - apply Rmax_comm.
  - apply Rmin_comm.
Qed.

Lemma top_face_sorted_witness :
  0 < 2
  /\ App.lengthMM (App.Rect.mk 120 120 160 220) 2
     >= App.widthMM (App.Rect.mk 120 120 160 220) 2
  /\ App.lengthMM (App.Rect.mk 120 120 160 220) 2 = Rmax (160 / 2) (220 / 2).
Proof.
  assert (Hpos : 0 < 2) by lra.
  pose proof (top_face_sorted (App.Rect.mk 120 120 160 220) 2 Hpos) as H.
  cbv zeta in H. cbn [App.Rect.w App.Rect.h] in H.
  split; [exact Hpos | split; [apply H | apply H]].
Defined.

(** C6. The extractions are plain expressions with a divisor that is
    never [0]: [scale || 1].  With the scale at [0] (not calibrated) the
    divisor is [1] and the results are the pixel extents themselves: the
    rectangle's [w] and [h], sorted, and the pixel length of the
    measurement line.  A calibration line with equal end points, or a
    reference length that is not positive, is such a case. *)
Theorem uncalibrated_extraction (topRect : App.Rect.t)
    (sideHeightA sideHeightB : App.Pt.t) :
  let w := App.Rect.w topRect in
  let h := App.Rect.h topRect in
  Js.or_else 0 1 = 1
  /\ (forall scale : R, Js.or_else scale 1 <> 0)
  /\ App.topWmm topRect 0 = w
  /\ App.topHmm topRect 0 = h
  /\ App.lengthMM topRect 0 = Rmax w h
  /\ App.widthMM topRect 0 = Rmin w h
  /\ App.areaCM2 topRect 0 = (Rmax w h * Rmin w h) / 100
  /\ App.heightMM sideHeightA sideHeightB 0 = App.dist sideHeightA sideHeightB
  /\ (forall (a b : App.Pt.t) (real : R),
        a = b \/ real <= 0 ->
        App.lengthMM topRect (App.topPxPerMM a b real) = Rmax w h
        /\ App.widthMM topRect (App.topPxPerMM a b real) = Rmin w h
        /\ App.heightMM sideHeightA sideHeightB (App.sidePxPerMM a b real)
           = App.dist sideHeightA sideHeightB).
Proof.
  cbv zeta.
  assert (H0 : Js.or_else 0 1 = 1) by apply or_else_zero.
  assert (Hw : App.topWmm topRect 0 = App.Rect.w topRect)
    by (unfold App.topWmm; rewrite H0; apply div_one).
  assert (Hh : App.topHmm topRect 0 = App.Rect.h topRect)
    by (unfold App.topHmm; rewrite H0; apply div_one).
  assert (Hl : App.lengthMM topRect 0
               = Rmax (App.Rect.w topRect) (App.Rect.h topRect))
    by (unfold App.lengthMM; rewrite Hw, Hh; reflexivity).
  assert (Hm : App.widthMM topRect 0
               = Rmin (App.Rect.w topRect) (App.Rect.h topRect))
    by (unfold App.widthMM; rewrite Hw, Hh; reflexivity).
  assert (Hs : App.heightMM sideHeightA sideHeightB 0
               = App.dist sideHeightA sideHeightB)
    by (unfold App.heightMM; rewrite H0; apply div_one).
  repeat split; try assumption.
  - apply or_else_one_nonzero.
  - unfold App.areaCM2. rewrite Hl, Hm. reflexivity.
  - destruct (pxPerMM_cases a b real) as [(Hd & Hr & _) | (_ & ->)];
      [| exact Hl].
    destruct H as [-> | Hle]; [rewrite dist_same in Hd |]; lra.
  - destruct (pxPerMM_cases a b real) as [(Hd & Hr & _) | (_ & ->)];
      [| exact Hm].
    destruct H as [-> | Hle]; [rewrite dist_same in Hd |]; lra.
  - change (App.sidePxPerMM a b real) with (App.topPxPerMM a b real).
    destruct (pxPerMM_cases a b real) as [(Hd & Hr & _) | (_ & ->)];
      [| exact Hs].
    destruct H as [-> | Hle]; [rewrite dist_same in Hd |]; lra.
Qed.

(** ** The rectangle editor *)

Import App.DraggableRect.

(** Runs the editor on concrete events, down to the arithmetic. *)
Ltac run_editor :=
  cbv beta iota zeta delta
    [run fold_left step mount setCorner onBodyDown onBodyMove onBodyUp corner
     set_down ix_eqb andb negb App.clamp
     rect refs cornerDown bodyDown dragOrigin rectOrigin
     App.Rect.x App.Rect.y App.Rect.w App.Rect.h App.Pt.x App.Pt.y
     App.ImgSize.w App.ImgSize.h].

Lemma setCorner_extent_nonneg (r : App.Rect.t) (ix iy : App.Ix) (p : App.Pt.t) :
  0 <= App.Rect.w (setCorner r ix iy p) /\ 0 <= App.Rect.h (setCorner r ix iy p).
Proof.
  destruct ix, iy; cbn; split; split_minmax; lra.
Qed.

Lemma onBodyMove_keeps_size (bounds : option App.ImgSize.t) (r : App.Rect.t)
    (rf : Refs) (pt : App.Pt.t) :
  App.Rect.w (onBodyMove bounds r rf pt) = App.Rect.w r
  /\ App.Rect.h (onBodyMove bounds r rf pt) = App.Rect.h r.
Proof.
  unfold onBodyMove. destruct (bodyDown rf), bounds; cbn; split; reflexivity.
Qed.

(** One event keeps both extents non-negative. *)
Lemma step_extent_nonneg (bounds : option App.ImgSize.t) (ed : Editor) (ev : Event) :
  0 <= App.Rect.w (rect ed) /\ 0 <= App.Rect.h (rect ed) ->
  0 <= App.Rect.w (rect (step bounds ed ev))
  /\ 0 <= App.Rect.h (rect (step bounds ed ev)).
Proof.
  intros Hinv. destruct ev; cbn [step rect]; try exact Hinv.
  - destruct (cornerDown ed ix iy); cbn [rect];
      [apply setCorner_extent_nonneg | exact Hinv].
  - destruct (onBodyMove_keeps_size bounds (rect ed) (refs ed) pt) as [-> ->].
    exact Hinv.
Qed.

(** X26. Every sequence of editor events keeps both extents
    non-negative, corner moves past the opposite corner included,
    whatever the bounds and the pointer positions. *)
Lemma run_extent_nonneg (bounds : option App.ImgSize.t) (evs : list Event) :
  forall ed : Editor,
    0 <= App.Rect.w (rect ed) /\ 0 <= App.Rect.h (rect ed) ->
    0 <= App.Rect.w (rect (run bounds ed evs))
    /\ 0 <= App.Rect.h (rect (run bounds ed evs)).
Proof.
  induction evs as [| ev evs IH]; intros ed Hinv.
  - exact Hinv.
  - cbn [run fold_left]. apply IH. apply step_extent_nonneg. exact Hinv.
Qed.

(** C7. Whatever the rectangle and wherever the corner [(ix, iy)] is
    dragged to, [setCorner] hands on a rectangle with [w >= 0] and
    [h >= 0] (also when the rectangle it starts from is not so).  The
    opposite corner stays where it was, and the dragged corner goes to
    [p] held back at the opposite corner by [min]/[max]: dragging past it
    flattens the rectangle to extent [0], it never inverts it and no drag
    is turned down. *)
Theorem setCorner_never_inverts (r : App.Rect.t) (ix iy : App.Ix) (p : App.Pt.t) :
  let r' := setCorner r ix iy p in
  let opposite := corner r (flip ix) (flip iy) in
  0 <= App.Rect.w r' /\ 0 <= App.Rect.h r'
  /\ corner r' (flip ix) (flip iy) = opposite
  /\ App.Pt.x (corner r' ix iy)
     = match ix with
       | App.I0 => Rmin (App.Pt.x p) (App.Pt.x opposite)
       | App.I1 => Rmax (App.Pt.x p) (App.Pt.x opposite)
       end
  /\ App.Pt.y (corner r' ix iy)
     = match iy with
       | App.I0 => Rmin (App.Pt.y p) (App.Pt.y opposite)
       | App.I1 => Rmax (App.Pt.y p) (App.Pt.y opposite)
       end.
Proof.
  cbv zeta.
  destruct (setCorner_extent_nonneg r ix iy p) as [Hw Hh].
  split; [exact Hw | split; [exact Hh |]].
  clear Hw Hh. destruct r as [x y w h], p as [px py].
  destruct ix, iy; unfold corner, setCorner; cbn;
    (split; [f_equal; ring | split; ring]).
Qed.

(** The position a body move asks for, before clamping. *)
Lemma onBodyMove_position (image : App.ImgSize.t) (r : App.Rect.t)
    (rf : Refs) (pt : App.Pt.t) :
  bodyDown rf = true ->
  let nx := App.Pt.x (rectOrigin rf) + (App.Pt.x pt - App.Pt.x (dragOrigin rf)) in
  let ny := App.Pt.y (rectOrigin rf) + (App.Pt.y pt - App.Pt.y (dragOrigin rf)) in
  onBodyMove (Some image) r rf pt
  = App.Rect.mk
      (App.clamp nx 0 (Rmax 0 (App.ImgSize.w image - App.Rect.w r)))
      (App.clamp ny 0 (Rmax 0 (App.ImgSize.h image - App.Rect.h r)))
      (App.Rect.w r) (App.Rect.h r).
Proof.
  intros Hdown. unfold onBodyMove. rewrite Hdown. reflexivity.
Qed.

(** C8 (amended). A body drag, for every pointer position, leaves [w]
    and [h] as they are and puts [x] in [[0, max(0, imageWidth - w)]] and
    [y] in [[0, max(0, imageHeight - h)]], each clamped on its own: that
    is [[0, imageWidth - w]] and [[0, imageHeight - h]] for a rectangle no
    larger than the image, and [0] on an axis on which the rectangle is
    larger than the image. *)
Theorem onBodyMove_clamps (image : App.ImgSize.t) (r : App.Rect.t)
    (rf : Refs) (pt : App.Pt.t) :
  bodyDown rf = true ->
  let r' := onBodyMove (Some image) r rf pt in
  let W := App.ImgSize.w image in
  let H := App.ImgSize.h image in
  App.Rect.w r' = App.Rect.w r /\ App.Rect.h r' = App.Rect.h r
  /\ 0 <= App.Rect.x r' <= Rmax 0 (W - App.Rect.w r)
  /\ 0 <= App.Rect.y r' <= Rmax 0 (H - App.Rect.h r)
  /\ (App.Rect.w r <= W -> App.Rect.x r' <= W - App.Rect.w r)
  /\ (App.Rect.h r <= H -> App.Rect.y r' <= H - App.Rect.h r)
  /\ (W < App.Rect.w r -> App.Rect.x r' = 0)
  /\ (H < App.Rect.h r -> App.Rect.y r' = 0).
Proof.
  intros Hdown. cbv zeta.
  rewrite (onBodyMove_position image r rf pt Hdown). cbn.
  set (nx := App.Pt.x (rectOrigin rf) + _).
  set (ny := App.Pt.y (rectOrigin rf) + _).
  pose proof (clamp_bounds nx 0 (Rmax 0 (App.ImgSize.w image - App.Rect.w r))
                (Rmax_l _ _)) as Hx.
  pose proof (clamp_bounds ny 0 (Rmax 0 (App.ImgSize.h image - App.Rect.h r))
                (Rmax_l _ _)) as Hy.
  repeat split; try apply Hx; try apply Hy; intros Hcase.
  - eapply Rle_trans; [apply Hx | rewrite Rmax_right by lra; lra].
  - eapply Rle_trans; [apply Hy | rewrite Rmax_right by lra; lra].
  - rewrite Rmax_left by lra. apply clamp_crossed. lra.
  - rewrite Rmax_left by lra. apply clamp_crossed. lra.
Qed.

Lemma onBodyMove_clamps_witness :
  let image := App.ImgSize.mk 800 500 in
  let r := App.Rect.mk 120 120 220 160 in
  let rf := onBodyDown r (App.Pt.mk 200 200) in
  let r' := onBodyMove (Some image) r rf (App.Pt.mk 2000 (-2000)) in
  bodyDown rf = true
  /\ App.Rect.w r' = 220 /\ App.Rect.h r' = 160
  /\ 0 <= App.Rect.x r' <= Rmax 0 (800 - 220)
  /\ 0 <= App.Rect.y r' <= Rmax 0 (500 - 160).
Proof.
  cbv zeta.
  pose proof (onBodyMove_clamps (App.ImgSize.mk 800 500)
                (App.Rect.mk 120 120 220 160)
                (onBodyDown (App.Rect.mk 120 120 220 160) (App.Pt.mk 200 200))
                (App.Pt.mk 2000 (-2000)) eq_refl) as H.
  cbv zeta in H. cbn [App.Rect.w App.Rect.h App.ImgSize.w App.ImgSize.h] in H.
  split; [reflexivity |].
  repeat split; apply H.
Defined.

(** C8, as stated, fails once the rectangle is wider than the image: a
    corner dragged beyond the right edge of an 800 x 500 image makes
    [w = 880], and the next body drag puts [x] at [0], above
    [imageWidth - w = -80]. *)
Lemma body_drag_of_oversized_rect :
  let image := App.ImgSize.mk 800 500 in
  let ed := run (Some image) (mount (App.Rect.mk 120 120 220 160))
                [CornerDown App.I1 App.I1;
                 CornerMove App.I1 App.I1 (App.Pt.mk 1000 300);
                 CornerUp App.I1 App.I1;
                 BodyDown (App.Pt.mk 200 200);
                 BodyMove (App.Pt.mk 210 200)] in
  App.Rect.w (rect ed) = 880
  /\ App.Rect.x (rect ed) = 0
  /\ App.ImgSize.w image - App.Rect.w (rect ed) < App.Rect.x (rect ed).
Proof.
  run_editor. repeat split; split_minmax; lra.
Qed.

(** A body drag keeps a rectangle that is no larger than the image
    inside the image. *)
Lemma onBodyMove_within (image : App.ImgSize.t) (r : App.Rect.t)
    (rf : Refs) (pt : App.Pt.t) :
  bodyDown rf = true ->
  App.Rect.w r <= App.ImgSize.w image ->
  App.Rect.h r <= App.ImgSize.h image ->
  within image (onBodyMove (Some image) r rf pt).
Proof.
  intros Hdown Hw Hh.
  rewrite (onBodyMove_position image r rf pt Hdown). cbv zeta.
  unfold within. cbn [App.Rect.x App.Rect.y App.Rect.w App.Rect.h].
  rewrite !Rmax_right by lra.
  match goal with
  | |- context [App.clamp ?nx 0 (App.ImgSize.w image - App.Rect.w r)] =>
      pose proof (clamp_bounds nx 0 (App.ImgSize.w image - App.Rect.w r))
  end.
  match goal with
  | |- context [App.clamp ?ny 0 (App.ImgSize.h image - App.Rect.h r)] =>
      pose proof (clamp_bounds ny 0 (App.ImgSize.h image - App.Rect.h r))
  end.
  lra.
Qed.

(** C2 fails at a corner drag: [setCorner] takes the pointer position as
    it comes and clamps it against the opposite corner only, never
    against the image (the body drag is the one that reads [bounds]).
    Dragging the top-left corner of the default rectangle, which lies
    within an 800 x 500 image, to (-50, -50) gives the rectangle
    (-50, -50, 390, 330), which starts left of and above the image. *)
Theorem corner_drag_leaves_image :
  let image := App.ImgSize.mk 800 500 in
  let r0 := App.Rect.mk 120 120 220 160 in
  let ed := run (Some image) (mount r0)
                [CornerDown App.I0 App.I0;
                 CornerMove App.I0 App.I0 (App.Pt.mk (-50) (-50))] in
  within image r0
  /\ App.Rect.x (rect ed) = -50 /\ App.Rect.y (rect ed) = -50
  /\ App.Rect.w (rect ed) = 390 /\ App.Rect.h (rect ed) = 330
  /\ App.Rect.x (rect ed) < 0 /\ App.Rect.y (rect ed) < 0.
Proof.
  unfold within. run_editor. repeat split; split_minmax; lra.
Qed.

(** * Further properties of the code *)

(** ** What a recommendation guarantees *)

(** X1. A recommendation with [fits = true] names a locker that holds the
    parcel: the height is within the height of [lockerSpecs], the shorter
    side of the footprint within its length and the longer side within
    its width. *)
Theorem api_fit_is_sound (lenMM widMM htMM : R) :
  let r := Api.recommendLocker lenMM widMM htMM in
  Api.fits r = true ->
  htMM <= Api.height_mm (Api.lockerSpecs r)
  /\ Rmin lenMM widMM <= Api.length_mm (Api.lockerSpecs r)
  /\ Rmax lenMM widMM <= Api.width_mm (Api.lockerSpecs r)
  /\ Api.dimensions r = Api.mkDims lenMM widMM htMM.
Proof.
  cbv zeta. unfold_recommend.
  repeat (split_cmp; cbn [negb andb]);
    cbn [Api.fits Api.lockerSpecs Api.dimensions
         Api.height_mm Api.length_mm Api.width_mm];
    intros Hfits; try discriminate Hfits;
    repeat split; assumption.
Qed.

Lemma api_fit_is_sound_witness :
  Api.fits (Api.recommendLocker 250 180 200) = true
  /\ 200 <= Api.height_mm (Api.lockerSpecs (Api.recommendLocker 250 180 200))
  /\ Api.size (Api.recommendLocker 250 180 200) = "MEDIUM".
Proof.
  assert (Hfits : Api.fits (Api.recommendLocker 250 180 200) = true)
    by run_recommend.
  split; [exact Hfits |].
  split; [apply (api_fit_is_sound 250 180 200 Hfits) | run_recommend].
Defined.

(** X2. No locker is recommended exactly when the parcel does not go
    into the LARGE one: the shorter side is above 385, the longer side
    above 500, or the height above 301.  Both copies agree on it. *)
Theorem no_locker_iff_exceeds_large (lenMM widMM htMM : R) :
  (Api.fits (Api.recommendLocker lenMM widMM htMM) = false
   <-> 385 < Rmin lenMM widMM \/ 500 < Rmax lenMM widMM \/ 301 < htMM)
  /\ (App.sizeKey (App.recommendLocker lenMM widMM htMM) = None
      <-> 385 < Rmin lenMM widMM \/ 500 < Rmax lenMM widMM \/ 301 < htMM).
Proof.
  unfold_recommend.
  repeat (split_cmp; cbn [negb andb]);
    cbn [Api.fits App.sizeKey];
    (split;
     (split;
      [ intros H; try discriminate H;
        first [left; lra | right; left; lra | right; right; lra]
      | intros [H | [H | H]]; try reflexivity; lra ])).
Qed.

(** X3. A parcel that is no larger in length, width and height never
    gets a larger tier and never loses its locker. *)
Theorem smaller_parcel_no_larger_tier (l w h l' w' h' : R) :
  l' <= l -> w' <= w -> h' <= h ->
  (tier_rank (App.sizeKey (App.recommendLocker l' w' h'))
   <= tier_rank (App.sizeKey (App.recommendLocker l w h)))%nat.
Proof.
  intros Hl Hw Hh. unfold_recommend.
  repeat (split_cmp; cbn [negb andb]);
    cbn [App.sizeKey tier_rank];
    try (repeat constructor; fail);
    exfalso; split_minmax; lra.
Qed.

Lemma smaller_parcel_no_larger_tier_witness :
  (tier_rank (App.sizeKey (App.recommendLocker 200 100 100))
   <= tier_rank (App.sizeKey (App.recommendLocker 300 150 250)))%nat.
Proof.
  apply smaller_parcel_no_larger_tier; lra.
Defined.

(** ** What the handler never does *)

(** X4. The handler answers with a success body only to a POST whose
    [measurements] hold three strictly positive numbers; the body then
    carries [recommendLocker] of these numbers, echoes them in
    [dimensions], comes with status 200, and one line is logged. *)
Theorem handler_success_only_if_valid (t_log t_res : string)
    (req : Api.Request) (r : Api.LockerRecommendation) (ts : string) :
  Api.payload (Api.handler t_log t_res req) = Api.Success r ts ->
  let m := Api.get (Api.body req) "measurements" in
  Api.method req = "POST"
  /\ Api.status (Api.handler t_log t_res req) = 200%nat
  /\ ts = t_res
  /\ exists l w h : R,
       Api.get m "length_mm" = Api.JNumber l
       /\ Api.get m "width_mm" = Api.JNumber w
       /\ Api.get m "height_mm" = Api.JNumber h
       /\ 0 < l /\ 0 < w /\ 0 < h
       /\ r = Api.recommendLocker l w h
       /\ Api.dimensions r = Api.mkDims l w h
       /\ Api.console (Api.handler t_log t_res req)
          = [Api.LogRequest m (Api.size r) t_log
                            (Api.get (Api.body req) "metadata")].
Proof.
  cbv zeta. unfold Api.handler.
  destruct (String.eqb (Api.method req) "OPTIONS"); [discriminate |].
  destruct (String.eqb (Api.method req) "POST") eqn:Hpost;
    cbn [negb]; [| discriminate].
  apply String.eqb_eq in Hpost.
  unfold Api.try_block.
  destruct (Api.destructure (Api.body req)) as [e | [m md]] eqn:Hd;
    [discriminate |].
  assert (Hm : m = Api.get (Api.body req) "measurements"
               /\ md = Api.get (Api.body req) "metadata").
  { unfold Api.destructure in Hd.
    destruct (Api.body req); inversion Hd; split; reflexivity. }
  destruct Hm as [<- <-].
  destruct (Api.truthy m); cbn [negb]; [| discriminate].
  destruct (Api.get m "length_mm") as [| | | l | | |] eqn:Hl; try discriminate.
  destruct (Api.get m "width_mm") as [| | | w | | |] eqn:Hw; try discriminate.
  destruct (Api.get m "height_mm") as [| | | h | | |] eqn:Hh; try discriminate.
  cbn [Api.as_number].
  repeat (split_cmp; cbn [orb]); try discriminate.
  cbn. intros [= <- <-].
  split; [exact Hpost | split; [reflexivity | split; [reflexivity |]]].
  exists l, w, h. repeat split; try reflexivity; try assumption.
  unfold Api.recommendLocker. cbv zeta.
  destruct (negb _); [reflexivity |].
  unfold Api.ordered. cbn [Api.scan].
  repeat (split_cmp; try reflexivity).
Qed.

Lemma handler_success_only_if_valid_witness :
  let m := Api.JObject [("length_mm", Api.JNumber 250);
                        ("width_mm", Api.JNumber 180);
                        ("height_mm", Api.JNumber 95)] in
  let req := Api.mkReq "POST" (Api.JObject [("measurements", m)]) in
  Api.payload (Api.handler "t0" "t1" req)
  = Api.Success (Api.recommendLocker 250 180 95) "t1"
  /\ Api.status (Api.handler "t0" "t1" req) = 200%nat.
Proof.
  cbv zeta.
  set (req := Api.mkReq "POST" _).
  assert (Hok : Api.payload (Api.handler "t0" "t1" req)
                = Api.Success (Api.recommendLocker 250 180 95) "t1").
  { subst req.
    cbv [Api.handler Api.try_block Api.destructure Api.get Api.lookup Api.truthy
         Api.as_number Api.method Api.body String.eqb Ascii.eqb Bool.eqb negb].
    repeat (split_cmp; try lra). reflexivity. }
  split; [exact Hok |].
  apply (handler_success_only_if_valid "t0" "t1" req _ _ Hok).
Defined.

(** X5. The status and the body of the answer depend on the method and
    on [body.measurements] alone: two requests with a body that agree on
    these get the same answer, whatever else the bodies hold ([metadata]
    only reaches the log). *)
Theorem handler_reads_measurements_only (t_log t_res : string)
    (req1 req2 : Api.Request) :
  Api.method req1 = Api.method req2 ->
  Api.body req1 <> Api.JUndefined -> Api.body req1 <> Api.JNull ->
  Api.body req2 <> Api.JUndefined -> Api.body req2 <> Api.JNull ->
  Api.get (Api.body req1) "measurements" = Api.get (Api.body req2) "measurements" ->
  Api.status (Api.handler t_log t_res req1) = Api.status (Api.handler t_log t_res req2)
  /\ Api.payload (Api.handler t_log t_res req1)
     = Api.payload (Api.handler t_log t_res req2).
Proof.
  intros Hmethod Hu1 Hn1 Hu2 Hn2 Hm. unfold Api.handler. rewrite <- Hmethod.
  destruct (String.eqb (Api.method req1) "OPTIONS"); [split; reflexivity |].
  destruct (negb _); [split; reflexivity |].
  unfold Api.try_block.
  rewrite !destructure_present by assumption.
  rewrite <- Hm.
  destruct (Api.truthy (Api.get (Api.body req1) "measurements"));
    cbn [negb]; [| split; reflexivity].
  destruct (Api.as_number _); [| split; reflexivity].
  destruct (Api.as_number _); [| split; reflexivity].
  destruct (Api.as_number _); [| split; reflexivity].
  destruct (_ || _); split; reflexivity.
Qed.

Lemma handler_reads_measurements_only_witness :
  let m := Api.JObject [("length_mm", Api.JNumber 250);
                        ("width_mm", Api.JNumber 180);
                        ("height_mm", Api.JNumber 95)] in
  let plain := Api.mkReq "POST" (Api.JObject [("measurements", m)]) in
  let tagged := Api.mkReq "POST"
                  (Api.JObject [("metadata", Api.JString "user123");
                                ("measurements", m)]) in
  Api.status (Api.handler "t0" "t1" plain) = Api.status (Api.handler "t0" "t1" tagged)
  /\ Api.payload (Api.handler "t0" "t1" plain)
     = Api.payload (Api.handler "t0" "t1" tagged).
Proof.
  cbv zeta.
  apply handler_reads_measurements_only; try reflexivity; discriminate.
Defined.

(** ** Geometry helpers, further *)

(** X6. [clamp] never answers below [min]; it is monotone and a second
    pass changes nothing.  With [min <= max] the answer is also at most
    [max] and a value in range is left alone; with [max < min] the answer
    is [min] whatever the value. *)
Theorem clamp_behaviour (n lo hi : R) :
  lo <= App.clamp n lo hi
  /\ App.clamp (App.clamp n lo hi) lo hi = App.clamp n lo hi
  /\ (forall n' : R, n <= n' -> App.clamp n lo hi <= App.clamp n' lo hi)
  /\ (lo <= hi -> App.clamp n lo hi <= hi)
  /\ (lo <= n <= hi -> App.clamp n lo hi = n)
  /\ (hi < lo -> App.clamp n lo hi = lo).
Proof.
  unfold App.clamp. repeat split; intros; split_minmax; lra.
Qed.

Lemma dist_is_dist_euc (a b : App.Pt.t) :
  App.dist a b = dist_euc (App.Pt.x a) (App.Pt.y a) (App.Pt.x b) (App.Pt.y b).
Proof. reflexivity. Qed.

Lemma dist_horizontal (a b : App.Pt.t) :
  App.Pt.y a = App.Pt.y b -> App.dist a b = Rabs (App.Pt.x a - App.Pt.x b).
Proof.
  intros Hy. unfold App.dist. cbv zeta. rewrite Hy.
  replace ((App.Pt.x a - App.Pt.x b) * (App.Pt.x a - App.Pt.x b)
           + (App.Pt.y b - App.Pt.y b) * (App.Pt.y b - App.Pt.y b))
    with (Rsqr (App.Pt.x a - App.Pt.x b)) by (unfold Rsqr; ring).
  apply sqrt_Rsqr_abs.
Qed.

(** X7. [dist] is a distance: symmetric, [0] between equal points only,
    unchanged when both points are moved by the same offset, and never
    longer by way of a third point.  Between two points on a horizontal
    line it is the absolute difference of their [x]. *)
Theorem dist_is_a_distance (a b c : App.Pt.t) (tx ty : R) :
  App.dist a b = App.dist b a
  /\ (App.dist a b = 0 <-> a = b)
  /\ App.dist a c <= App.dist a b + App.dist b c
  /\ App.dist (App.Pt.mk (App.Pt.x a + tx) (App.Pt.y a + ty))
              (App.Pt.mk (App.Pt.x b + tx) (App.Pt.y b + ty))
     = App.dist a b
  /\ (App.Pt.y a = App.Pt.y b -> App.dist a b = Rabs (App.Pt.x a - App.Pt.x b)).
Proof.
  repeat split.
  - unfold App.dist. cbv zeta. f_equal. ring.
  - apply dist_zero_iff.
  - apply dist_zero_iff.
  - rewrite !dist_is_dist_euc. apply triangle.
  - unfold App.dist. cbn. f_equal. ring.
  - apply dist_horizontal.
Qed.

(** ** PhotoMeasure: default placement and readiness *)

Import App.PhotoMeasure.

Lemma Rabs_of_neg_len (len : R) : 0 <= len -> Rabs (- len) = len.
Proof. intros H. rewrite Rabs_Ropp. apply Rabs_right. lra. Qed.

Lemma scale_divisor_pos (a b : App.Pt.t) (real : R) :
  0 < Js.or_else (App.topPxPerMM a b real) 1.
Proof.
  destruct (pxPerMM_cases a b real) as [(Hd & Hr & E) | (_ & E)]; rewrite E.
  - pose proof (Rdiv_lt_0_compat _ _ Hd Hr) as Hpos.
    rewrite or_else_nonzero; lra.
  - rewrite or_else_zero. lra.
Qed.

Lemma div_pos_iff (e d : R) : 0 < d -> (0 < e / d <-> 0 < e).
Proof.
  intros Hd. split; intros H.
  - replace e with (e / d * d) by (field; lra).
    apply Rmult_lt_0_compat; assumption.
  - apply Rdiv_lt_0_compat; assumption.
Qed.

(** The condition of the placement effect. *)
Lemma placeTop_fires (s : Top) :
  loaded (topImgURL s) = true ->
  0 < App.ImgSize.w (topImgSize s) -> 0 < App.ImgSize.h (topImgSize s) ->
  topPlaced s = false ->
  loaded (topImgURL s) && Js.gtb (App.ImgSize.w (topImgSize s)) 0
  && Js.gtb (App.ImgSize.h (topImgSize s)) 0 && negb (topPlaced s) = true.
Proof.
  intros Hl Hw Hh Hp. rewrite Hl, Hp.
  rewrite (proj2 (gtb_true_iff _ _) Hw), (proj2 (gtb_true_iff _ _) Hh).
  reflexivity.
Qed.

Lemma placeSide_fires (s : Side) :
  loaded (sideImgURL s) = true ->
  0 < App.ImgSize.w (sideImgSize s) -> 0 < App.ImgSize.h (sideImgSize s) ->
  sidePlaced s = false ->
  loaded (sideImgURL s) && Js.gtb (App.ImgSize.w (sideImgSize s)) 0
  && Js.gtb (App.ImgSize.h (sideImgSize s)) 0 && negb (sidePlaced s) = true.
Proof.
  intros Hl Hw Hh Hp. rewrite Hl, Hp.
  rewrite (proj2 (gtb_true_iff _ _) Hw), (proj2 (gtb_true_iff _ _) Hh).
  reflexivity.
Qed.

(** X10. Once a top photo with a positive size is known and its tools
    are not placed yet, the placement effect puts the rectangle
    (0.45 x 0.35 of the image) and both ends of the calibration line
    inside the image, makes the line [0.3 * min(w, h)] pixels long, keeps
    the reference length, and sets [topPlaced]; running the effect again
    changes nothing. *)
Theorem placeTop_centres_tools (s : Top) :
  loaded (topImgURL s) = true ->
  0 < App.ImgSize.w (topImgSize s) -> 0 < App.ImgSize.h (topImgSize s) ->
  topPlaced s = false ->
  let W := App.ImgSize.w (topImgSize s) in
  let H := App.ImgSize.h (topImgSize s) in
  let s' := placeTop s in
  topPlaced s' = true
  /\ within (topImgSize s) (topRect s')
  /\ App.Rect.w (topRect s') = W * 0.45 /\ App.Rect.h (topRect s') = H * 0.35
  /\ inside (topImgSize s) (topCalA s') /\ inside (topImgSize s) (topCalB s')
  /\ App.dist (topCalA s') (topCalB s') = Rmin W H * 0.3
  /\ topCalReal s' = topCalReal s
  /\ placeTop s' = s'.
Proof.
  intros Hl Hw Hh Hp. cbv zeta.
  unfold placeTop. cbv zeta. rewrite (placeTop_fires s Hl Hw Hh Hp).
  cbn [topPlaced topRect topCalA topCalB topCalReal topImgURL topImgSize].
  set (W := App.ImgSize.w (topImgSize s)) in *.
  set (H := App.ImgSize.h (topImgSize s)) in *.
  assert (Hlen : 0 < Rmin W H * 0.3) by (split_minmax; lra).
  assert (Hlen' : Rmin W H * 0.3 <= W /\ Rmin W H * 0.3 <= H)
    by (split_minmax; lra).
  repeat split; cbn; fold W H; try lra.
  - rewrite dist_horizontal by reflexivity. cbn.
    replace (W / 2 - Rmin W H * 0.3 / 2 - (W / 2 + Rmin W H * 0.3 / 2))
      with (- (Rmin W H * 0.3)) by lra.
    apply Rabs_of_neg_len. lra.
  - rewrite !andb_false_r. reflexivity.
Qed.

Lemma placeTop_centres_tools_witness :
  let s := onTopFile_size (App.ImgSize.mk 800 500) (onTopFile_url "blob:1" initTop) in
  topPlaced (placeTop s) = true
  /\ within (App.ImgSize.mk 800 500) (topRect (placeTop s))
  /\ placeTop (placeTop s) = placeTop s.
Proof.
  cbv zeta.
  pose proof (placeTop_centres_tools
                (onTopFile_size (App.ImgSize.mk 800 500)
                                (onTopFile_url "blob:1" initTop))) as H.
  cbv zeta in H. cbn [onTopFile_size topImgURL topImgSize topPlaced
                      App.ImgSize.w App.ImgSize.h] in H.
  assert (H1 : 0 < 800) by lra. assert (H2 : 0 < 500) by lra.
  specialize (H eq_refl H1 H2 eq_refl).
  repeat split; apply H.
Defined.

(** X11. Once a side photo with a positive size is known and its tools
    are not placed yet, the placement effect puts both ends of the
    calibration line and of the height line inside the image, the
    calibration line level through the centre and the height line upright
    through it, neither of them of length [0]; it keeps the reference
    length and sets [sidePlaced], and running the effect again changes
    nothing. *)
Theorem placeSide_centres_tools (s : Side) :
  loaded (sideImgURL s) = true ->
  0 < App.ImgSize.w (sideImgSize s) -> 0 < App.ImgSize.h (sideImgSize s) ->
  sidePlaced s = false ->
  let W := App.ImgSize.w (sideImgSize s) in
  let H := App.ImgSize.h (sideImgSize s) in
  let s' := placeSide s in
  sidePlaced s' = true
  /\ inside (sideImgSize s) (sideCalA s') /\ inside (sideImgSize s) (sideCalB s')
  /\ inside (sideImgSize s) (sideHeightA s')
  /\ inside (sideImgSize s) (sideHeightB s')
  /\ App.Pt.y (sideCalA s') = H / 2 /\ App.Pt.y (sideCalB s') = H / 2
  /\ App.Pt.x (sideHeightA s') = W / 2 /\ App.Pt.x (sideHeightB s') = W / 2
  /\ App.Pt.x (sideCalA s') < App.Pt.x (sideCalB s')
  /\ App.Pt.y (sideHeightA s') < App.Pt.y (sideHeightB s')
  /\ sideCalReal s' = sideCalReal s
  /\ placeSide s' = s'.
Proof.
  intros Hl Hw Hh Hp. cbv zeta.
  unfold placeSide. cbv zeta. rewrite (placeSide_fires s Hl Hw Hh Hp).
  cbn [sidePlaced sideCalA sideCalB sideHeightA sideHeightB sideCalReal
       sideImgURL sideImgSize].
  set (W := App.ImgSize.w (sideImgSize s)) in *.
  set (H := App.ImgSize.h (sideImgSize s)) in *.
  assert (Hlen : 0 < Rmin W H * 0.3) by (split_minmax; lra).
  assert (Hlen' : Rmin W H * 0.3 <= W /\ Rmin W H * 0.3 <= H)
    by (split_minmax; lra).
  unfold inside.
  repeat split; cbn; fold W H; try lra.
  rewrite !andb_false_r. reflexivity.
Qed.

Lemma placeSide_centres_tools_witness :
  let s := onSideFile_size (App.ImgSize.mk 300 1000)
             (onSideFile_url "blob:2" initSide) in
  sidePlaced (placeSide s) = true
  /\ inside (App.ImgSize.mk 300 1000) (sideHeightA (placeSide s))
  /\ placeSide (placeSide s) = placeSide s.
Proof.
  cbv zeta.
  pose proof (placeSide_centres_tools
                (onSideFile_size (App.ImgSize.mk 300 1000)
                                 (onSideFile_url "blob:2" initSide))) as H.
  cbv zeta in H. cbn [onSideFile_size sideImgURL sideImgSize sidePlaced
                      App.ImgSize.w App.ImgSize.h] in H.
  assert (H1 : 0 < 300) by lra. assert (H2 : 0 < 1000) by lra.
  specialize (H eq_refl H1 H2 eq_refl).
  repeat split; apply H.
Defined.

Lemma minmax_pos_iff (x y : R) : 0 < Rmax x y /\ 0 < Rmin x y <-> 0 < x /\ 0 < y.
Proof. split; intros H; split_minmax; lra. Qed.

(** X12. A step never counts as done on a degenerate tool, whatever the
    calibration and whatever [Number.isFinite] answers: the top step is
    done only with a photo loaded and a rectangle of positive width and
    height, the side step only with a photo loaded and a height line
    whose two ends differ. *)
Theorem readiness_needs_geometry (isFinite : R -> bool) (t : Top) (s : Side) :
  (stepDoneTop isFinite t = true ->
   loaded (topImgURL t) = true
   /\ 0 < App.Rect.w (topRect t) /\ 0 < App.Rect.h (topRect t))
  /\ (stepDoneSide isFinite s = true ->
      loaded (sideImgURL s) = true /\ sideHeightA s <> sideHeightB s).
Proof.
  split.
  - unfold stepDoneTop.
    rewrite !andb_true_iff, !gtb_true_iff.
    unfold length_of, width_of, App.lengthMM, App.widthMM, App.topWmm,
      App.topHmm, top_scale.
    pose proof (scale_divisor_pos (topCalA t) (topCalB t) (topCalReal t)) as Hd.
    pose proof (div_pos_iff (App.Rect.w (topRect t)) _ Hd) as Hw.
    pose proof (div_pos_iff (App.Rect.h (topRect t)) _ Hd) as Hh.
    pose proof (minmax_pos_iff
                  (App.Rect.w (topRect t)
                   / Js.or_else (App.topPxPerMM (topCalA t) (topCalB t) (topCalReal t)) 1)
                  (App.Rect.h (topRect t)
                   / Js.or_else (App.topPxPerMM (topCalA t) (topCalB t) (topCalReal t)) 1))
      as Hmm.
    tauto.
  - unfold stepDoneSide.
    rewrite !andb_true_iff, gtb_true_iff.
    unfold height_of, App.heightMM, side_scale.
    change (App.sidePxPerMM (sideCalA s) (sideCalB s) (sideCalReal s))
      with (App.topPxPerMM (sideCalA s) (sideCalB s) (sideCalReal s)).
    pose proof (scale_divisor_pos (sideCalA s) (sideCalB s) (sideCalReal s)) as Hd.
    rewrite (div_pos_iff _ _ Hd).
    pose proof (dist_zero_iff (sideHeightA s) (sideHeightB s)) as Hz.
    intros [[_ Hpos] Hload]. split; [exact Hload |].
    intros E. apply Hz in E. lra.
Qed.

Lemma app_too_large_iff (l w h : R) :
  App.label (App.recommendLocker l w h) = "Too large for footprint"
  <-> 385 < Rmin l w \/ 500 < Rmax l w.
Proof.
  unfold_recommend.
  repeat (split_cmp; cbn [negb andb]); cbn [App.label];
    (split; [ intros H; try discriminate H; first [left; lra | right; lra]
            | intros [H | H]; try reflexivity; lra ]).
Qed.

(** X13. In the application the recommendation is asked for
    [(lengthMM, widthMM, heightMM)] with [lengthMM >= widthMM], so the
    footprint test compares the rectangle's shorter side with 385 and its
    longer side with 500; and when both steps are done all three inputs
    are strictly positive, whatever [Number.isFinite] answers. *)
Theorem ui_recommendation_inputs (isFinite : R -> bool) (t : Top) (s : Side) :
  width_of t <= length_of t
  /\ (App.label (rec t s) = "Too large for footprint"
      <-> 385 < width_of t \/ 500 < length_of t)
  /\ (stepDoneTop isFinite t = true -> stepDoneSide isFinite s = true ->
      0 < length_of t /\ 0 < width_of t /\ 0 < height_of s).
Proof.
  assert (Hle : width_of t <= length_of t).
  { unfold width_of, length_of, App.widthMM, App.lengthMM. split_minmax; lra. }
  split; [exact Hle | split].
  - unfold rec. rewrite app_too_large_iff.
    rewrite Rmin_right, Rmax_left by exact Hle. reflexivity.
  - unfold stepDoneTop, stepDoneSide.
    rewrite !andb_true_iff, !gtb_true_iff. tauto.
Qed.

(** ** RoundHandle and CalibrationLine: throttled end point drags *)

Module HandleFacts.
Import App.RoundHandle.

Lemma run_app (s : State) (evs1 evs2 : list Event) :
  run s (evs1 ++ evs2)%list
  = let (s1, calls1) := run s evs1 in
    let (s2, calls2) := run s1 evs2 in
    (s2, (calls1 ++ calls2)%list).
Proof.
  revert s. induction evs1 as [| ev rest IH]; intros s; cbn [run app].
  - destruct (run s evs2). reflexivity.
  - destruct (step s ev) as [s1 c1]. rewrite IH.
    destruct (run s1 rest) as [s2 c2]. destruct (run s2 evs2) as [s3 c3].
    rewrite app_assoc. reflexivity.
Qed.

(** Moves while the button is down call nothing; they leave the last
    position pending and a frame requested. *)
Lemma moves_leave_last_pending (ps : list App.Pt.t) :
  forall (s : State) (p : App.Pt.t),
    downRef s = true ->
    exists id nh,
      run s (map PointerMove (ps ++ [p])%list)
      = (mkState true (Some id) (Some p) nh, []).
Proof.
  induction ps as [| q rest IH]; intros s p Hdown.
  - cbn. unfold onMove. rewrite Hdown. cbn [negb].
    destruct (rafRef s); eexists; eexists; reflexivity.
  - cbn [app map run step]. unfold onMove at 1. rewrite Hdown. cbn [negb].
    destruct (rafRef s) as [id |];
      match goal with
      | |- context [run ?s1 _] =>
          destruct (IH s1 p eq_refl) as (id' & nh & ->)
      end; eexists; eexists; reflexivity.
Qed.

Lemma frames_without_request (n : nat) (s : State) :
  rafRef s = None -> run s (repeat AnimationFrame n) = (s, []).
Proof.
  intros Hraf. induction n as [| n IH]; cbn [repeat run step].
  - reflexivity.
  - rewrite Hraf, IH. reflexivity.
Qed.

End HandleFacts.

(** X14. Of the moves that arrive while the button is down, the next
    animation frame delivers the last one only: one [onDrag] and one
    [onDragMove] with that position.  On a calibration line this moves
    the dragged end to that position and leaves the other end alone. *)
Theorem throttled_moves_last_wins (s : App.RoundHandle.State)
    (ps : list App.Pt.t) (p : App.Pt.t) (line : App.Pt.t * App.Pt.t) :
  App.RoundHandle.downRef s = true ->
  let evs := (map App.RoundHandle.PointerMove (ps ++ [p])
              ++ [App.RoundHandle.AnimationFrame])%list in
  let calls := snd (App.RoundHandle.run s evs) in
  calls = [App.RoundHandle.OnDrag p; App.RoundHandle.OnDragMove p]
  /\ App.RoundHandle.rafRef (fst (App.RoundHandle.run s evs)) = None
  /\ App.RoundHandle.pendingRef (fst (App.RoundHandle.run s evs)) = None
  /\ App.CalibrationLine.apply App.CalibrationLine.EndA line calls = (p, snd line)
  /\ App.CalibrationLine.apply App.CalibrationLine.EndB line calls = (fst line, p).
Proof.
  intros Hdown. cbv zeta.
  rewrite HandleFacts.run_app.
  destruct (HandleFacts.moves_leave_last_pending ps s p Hdown) as (id & nh & ->).
  cbn. repeat split.
Qed.

Lemma throttled_moves_last_wins_witness :
  let s := fst (App.RoundHandle.onDown App.RoundHandle.mount (App.Pt.mk 80 80)) in
  let evs := (map App.RoundHandle.PointerMove
                  ([App.Pt.mk 81 80; App.Pt.mk 90 85] ++ [App.Pt.mk 100 90])
              ++ [App.RoundHandle.AnimationFrame])%list in
  snd (App.RoundHandle.run s evs)
  = [App.RoundHandle.OnDrag (App.Pt.mk 100 90);
     App.RoundHandle.OnDragMove (App.Pt.mk 100 90)].
Proof.
  cbv zeta.
  apply (throttled_moves_last_wins
           (fst (App.RoundHandle.onDown App.RoundHandle.mount (App.Pt.mk 80 80)))
           [App.Pt.mk 81 80; App.Pt.mk 90 85] (App.Pt.mk 100 90)
           (App.Pt.mk 80 80, App.Pt.mk 260 80)).
  reflexivity.
Defined.

(** X15. While the button is up and no frame is requested, pointer moves
    and animation frames call nothing and leave the handle as it is. *)
Theorem hovering_calls_nothing (s : App.RoundHandle.State)
    (evs : list App.RoundHandle.Event) :
  App.RoundHandle.downRef s = false ->
  App.RoundHandle.rafRef s = None ->
  forallb hovering evs = true ->
  App.RoundHandle.run s evs = (s, []).
Proof.
  intros Hup Hraf. induction evs as [| ev rest IH]; cbn [forallb]; intros Hall.
  - reflexivity.
  - apply andb_true_iff in Hall. destruct Hall as [Hev Hrest].
    destruct ev; try discriminate Hev; cbn [App.RoundHandle.run App.RoundHandle.step].
    + unfold App.RoundHandle.onMove. rewrite Hup. cbn [negb].
      rewrite (IH Hrest). reflexivity.
    + rewrite Hraf, (IH Hrest). reflexivity.
Qed.

Lemma hovering_calls_nothing_witness :
  App.RoundHandle.run App.RoundHandle.mount
    [App.RoundHandle.PointerMove (App.Pt.mk 10 10);
     App.RoundHandle.AnimationFrame;
     App.RoundHandle.PointerMove (App.Pt.mk 20 20)]
  = (App.RoundHandle.mount, []).
Proof.
  apply hovering_calls_nothing; reflexivity.
Defined.

(** X16. A release withdraws the frame request: the moves since the last
    frame are never delivered, however many frames follow.  The only call
    is [onDragEnd], and the line keeps both ends. *)
Theorem release_drops_pending_moves (s : App.RoundHandle.State)
    (ps : list App.Pt.t) (p : App.Pt.t) (n : nat)
    (which : App.CalibrationLine.End_) (line : App.Pt.t * App.Pt.t) :
  App.RoundHandle.downRef s = true ->
  let evs := (map App.RoundHandle.PointerMove (ps ++ [p])
              ++ App.RoundHandle.PointerUp
                 :: repeat App.RoundHandle.AnimationFrame n)%list in
  snd (App.RoundHandle.run s evs) = [App.RoundHandle.OnDragEnd]
  /\ App.RoundHandle.pendingRef (fst (App.RoundHandle.run s evs)) = Some p
  /\ App.CalibrationLine.apply which line (snd (App.RoundHandle.run s evs)) = line.
Proof.
  intros Hdown. cbv zeta.
  rewrite HandleFacts.run_app.
  destruct (HandleFacts.moves_leave_last_pending ps s p Hdown) as (id & nh & ->).
  cbn [App.RoundHandle.run App.RoundHandle.step App.RoundHandle.onUp
       App.RoundHandle.pendingRef App.RoundHandle.next_handle].
  rewrite HandleFacts.frames_without_request by reflexivity.
  cbn. repeat split.
Qed.

Lemma release_drops_pending_moves_witness :
  let s := fst (App.RoundHandle.onDown App.RoundHandle.mount (App.Pt.mk 80 80)) in
  snd (App.RoundHandle.run s
         (map App.RoundHandle.PointerMove ([] ++ [App.Pt.mk 100 90])
          ++ App.RoundHandle.PointerUp
             :: repeat App.RoundHandle.AnimationFrame 2)%list)
  = [App.RoundHandle.OnDragEnd].
Proof.
  cbv zeta.
  apply (release_drops_pending_moves
           (fst (App.RoundHandle.onDown App.RoundHandle.mount (App.Pt.mk 80 80)))
           [] (App.Pt.mk 100 90) 2 App.CalibrationLine.EndA
           (App.Pt.mk 80 80, App.Pt.mk 260 80)).
  reflexivity.
Defined.

(** ** SVGMagnifier *)

(** X17. In an image at least [2 * (r + 12)] wide and high the lens
    keeps 12 pixels from every edge; in a narrower (lower) image its
    centre is at [r + 12] from the left (top) edge, so that the lens
    comes closer than 12 pixels to the other edge, or passes it.  Where
    there is room the lens sits up
    and to the right of the pointer, and the magnified image shows the
    point under the pointer at the centre of the lens. *)
Theorem magnifier_lens_position (x y scale r : R) (imgSize : App.ImgSize.t) :
  let W := App.ImgSize.w imgSize in
  let H := App.ImgSize.h imgSize in
  let mx := App.SVGMagnifier.mx x r imgSize in
  let my := App.SVGMagnifier.my y r imgSize in
  (2 * (r + 12) <= W -> 12 <= mx - r /\ mx + r <= W - 12)
  /\ (2 * (r + 12) <= H -> 12 <= my - r /\ my + r <= H - 12)
  /\ (W < 2 * (r + 12) -> mx = r + 12)
  /\ (H < 2 * (r + 12) -> my = r + 12)
  /\ (0 <= x -> x + 2 * (r + 12) <= W -> mx = x + r + 12)
  /\ (2 * (r + 12) <= y -> y <= H -> my = y - r - 12)
  /\ App.SVGMagnifier.shown_at x y scale r imgSize (App.Pt.mk x y) = App.Pt.mk mx my.
Proof.
  cbv zeta. unfold App.SVGMagnifier.shown_at, App.SVGMagnifier.mx,
    App.SVGMagnifier.my, App.clamp.
  repeat split; intros; try (split_minmax; lra).
  cbn. f_equal; ring.
Qed.

(** ** Screen calibration *)

Lemma onDragResize_range (innerWidth clientX : R) :
  0.2 <= App.ScreenCalibration.onDragResize innerWidth clientX <= 6.
Proof.
  unfold App.ScreenCalibration.onDragResize. cbv zeta.
  apply clamp_bounds. lra.
Qed.

Lemma screen_step_range (innerWidth : R) (s : App.ScreenCalibration.State)
    (ev : App.ScreenCalibration.Event) :
  0.2 <= App.ScreenCalibration.scale s <= 6 ->
  0.2 <= App.ScreenCalibration.scale (App.ScreenCalibration.step innerWidth s ev) <= 6.
Proof.
  intros Hs. destruct ev; cbn [App.ScreenCalibration.step].
  - apply onDragResize_range.
  - destruct (App.ScreenCalibration.downRef s); cbn [App.ScreenCalibration.scale];
      [apply onDragResize_range | exact Hs].
  - exact Hs.
Qed.

(** X18. The card scale stays within [[0.2, 6]] through every sequence
    of pointer events, and with it the screen's pixels per millimetre
    within [[389 * 0.2 / 85.6, 389 * 6 / 85.6]].  The scale a drag sets
    depends on the distance of the pointer from the middle of the window
    only, not on the side. *)
Theorem card_scale_stays_in_range (innerWidth : R)
    (s : App.ScreenCalibration.State) (evs : list App.ScreenCalibration.Event) :
  0.2 <= App.ScreenCalibration.scale s <= 6 ->
  let s' := App.ScreenCalibration.run innerWidth s evs in
  0.2 <= App.ScreenCalibration.scale s' <= 6
  /\ 389 * 0.2 / 85.6
     <= App.ScreenCalibration.pxPerMM (App.ScreenCalibration.scale s')
     <= 389 * 6 / 85.6
  /\ (forall d : R,
        App.ScreenCalibration.onDragResize innerWidth (innerWidth / 2 + d)
        = App.ScreenCalibration.onDragResize innerWidth (innerWidth / 2 - d)).
Proof.
  intros Hs. cbv zeta.
  assert (Hrun : 0.2 <= App.ScreenCalibration.scale
                          (App.ScreenCalibration.run innerWidth s evs) <= 6).
  { revert s Hs. induction evs as [| ev rest IH]; intros s Hs.
    - exact Hs.
    - cbn [App.ScreenCalibration.run fold_left].
      apply IH. apply screen_step_range. exact Hs. }
  split; [exact Hrun | split].
  - unfold App.ScreenCalibration.pxPerMM, App.pxPerMMFromScreenScale,
      App.CREDIT_CARD_WIDTH_MM, App.CARD_SVG_PX. cbn [App.ImgSize.w].
    lra.
  - intros d. unfold App.ScreenCalibration.onDragResize. cbv zeta.
    replace (innerWidth / 2 + d - innerWidth / 2) with d by lra.
    replace (innerWidth / 2 - d - innerWidth / 2) with (- d) by lra.
    rewrite Rabs_Ropp. reflexivity.
Qed.

Lemma card_scale_stays_in_range_witness :
  let s := App.ScreenCalibration.run 1000 (App.ScreenCalibration.mkState false 1)
             [App.ScreenCalibration.PointerDown 5000;
              App.ScreenCalibration.PointerMove 500] in
  0.2 <= App.ScreenCalibration.scale s <= 6.
Proof.
  cbv zeta.
  apply (card_scale_stays_in_range 1000 (App.ScreenCalibration.mkState false 1)).
  cbn. lra.
Defined.

(** ** Onboarding *)

Lemma tour_act_in_range (s : App.Onboarding.State) (a : option App.Onboarding.Button) :
  (App.Onboarding.step s < 5)%nat ->
  (App.Onboarding.step (tour_act s a) < 5)%nat.
Proof.
  intros Hs. destruct a as [b |]; [| exact Hs].
  unfold tour_act, App.Onboarding.click, App.Onboarding.rendered.
  destruct (App.Onboarding.open s); cbn [andb negb]; [| exact Hs].
  destruct b; cbn [negb App.Onboarding.step]; try exact Hs.
  - destruct (Nat.ltb 0 (App.Onboarding.step s)); cbn; [| exact Hs].
    apply Nat.le_lt_trans with (App.Onboarding.step s); [apply Nat.le_sub_l | exact Hs].
  - cbn [List.length App.Onboarding.steps Nat.sub].
    destruct (Nat.ltb (App.Onboarding.step s) 4) eqn:E; cbn; [| exact Hs].
    apply Nat.ltb_lt in E. rewrite Nat.add_1_r.
    apply (proj1 (Nat.succ_lt_mono _ 4)). exact E.
  - destruct (negb _); cbn; [exact Hs | repeat constructor].
  - destruct (negb _); exact Hs.
Qed.

(** X20. Through every sequence of clicks on the tour's buttons and of
    "Replay Tutorial", the step stays below the number of steps, so the
    overlay always has a title to show.  Closing the tour and replaying
    it resumes at the step at which it was closed. *)
Theorem tour_step_in_range (s : App.Onboarding.State)
    (acts : list (option App.Onboarding.Button)) :
  (App.Onboarding.step s < 5)%nat ->
  let s' := fold_left tour_act acts s in
  (App.Onboarding.step s' < List.length App.Onboarding.steps)%nat
  /\ (exists t, App.Onboarding.title s' = Some t)
  /\ tour_act (tour_act s' (Some App.Onboarding.Close)) None
     = App.Onboarding.mkState true (App.Onboarding.step s').
Proof.
  intros Hs. cbv zeta.
  assert (Hrun : (App.Onboarding.step (fold_left tour_act acts s) < 5)%nat).
  { revert s Hs. induction acts as [| a rest IH]; intros s Hs.
    - exact Hs.
    - cbn [fold_left]. apply IH. apply tour_act_in_range. exact Hs. }
  split; [exact Hrun | split].
  - unfold App.Onboarding.title.
    destruct (nth_error App.Onboarding.steps
                (App.Onboarding.step (fold_left tour_act acts s))) as [t |] eqn:E.
    + exists t. reflexivity.
    + apply nth_error_None in E. cbn in E.
      exfalso. apply (Nat.lt_irrefl 5).
      apply Nat.le_lt_trans with (App.Onboarding.step (fold_left tour_act acts s));
        assumption.
  - unfold tour_act, App.Onboarding.click, App.Onboarding.rendered,
      App.Onboarding.replay.
    destruct (App.Onboarding.open _); reflexivity.
Qed.

Lemma tour_step_in_range_witness :
  let s := fold_left tour_act
             [Some App.Onboarding.Next; Some App.Onboarding.Next;
              Some App.Onboarding.Next; Some App.Onboarding.Next;
              Some App.Onboarding.Next; Some App.Onboarding.Back]
             (App.Onboarding.mkState true 0) in
  (App.Onboarding.step s < List.length App.Onboarding.steps)%nat.
Proof.
  cbv zeta.
  apply (tour_step_in_range (App.Onboarding.mkState true 0)).
  cbn. repeat constructor.
Defined.

(** ** The rectangle editor, further *)

Lemma run_cons (bounds : option App.ImgSize.t) (ed : Editor) (ev : Event)
    (evs : list Event) :
  run bounds ed (ev :: evs) = run bounds (step bounds ed ev) evs.
Proof. reflexivity. Qed.

(** A body move reads the rectangle for its size only. *)
Lemma onBodyMove_size_only (bounds : option App.ImgSize.t)
    (r1 r2 : App.Rect.t) (rf : Refs) (pt : App.Pt.t) :
  bodyDown rf = true ->
  App.Rect.w r1 = App.Rect.w r2 -> App.Rect.h r1 = App.Rect.h r2 ->
  onBodyMove bounds r1 rf pt = onBodyMove bounds r2 rf pt.
Proof.
  intros Hdown Hw Hh. unfold onBodyMove. rewrite Hdown, Hw, Hh. reflexivity.
Qed.

Lemma body_moves_follow_last (bounds : option App.ImgSize.t)
    (ps : list App.Pt.t) :
  forall (ed : Editor) (p : App.Pt.t),
    bodyDown (refs ed) = true ->
    run bounds ed (map BodyMove (ps ++ [p])%list)
    = mkEditor (onBodyMove bounds (rect ed) (refs ed) p) (refs ed) (cornerDown ed).
Proof.
  induction ps as [| q rest IH]; intros ed p Hdown.
  - reflexivity.
  - cbn [app map]. rewrite run_cons.
    rewrite IH by exact Hdown. cbn [step rect refs cornerDown].
    destruct (onBodyMove_keeps_size bounds (rect ed) (refs ed) q) as [Hw Hh].
    rewrite (onBodyMove_size_only bounds _ (rect ed) (refs ed) p Hdown Hw Hh).
    reflexivity.
Qed.

(** X21. During a body drag the rectangle follows the pointer, not its
    path: after any moves it is where the last move alone would have put
    it, as the position is always taken from the drag's start. *)
Theorem body_drag_follows_last_move (bounds : option App.ImgSize.t)
    (ed : Editor) (p0 p : App.Pt.t) (ps : list App.Pt.t) :
  run bounds ed (BodyDown p0 :: map BodyMove (ps ++ [p])%list)
  = run bounds ed [BodyDown p0; BodyMove p].
Proof.
  rewrite run_cons.
  rewrite body_moves_follow_last by reflexivity.
  reflexivity.
Qed.

(** X23. Pressing the body of a rectangle that lies within the image and
    moving the pointer by nothing leaves the rectangle where it is. *)
Theorem body_press_without_move (image : App.ImgSize.t) (r : App.Rect.t)
    (pt : App.Pt.t) :
  within image r ->
  onBodyMove (Some image) r (onBodyDown r pt) pt = r.
Proof.
  intros (Hx & Hy & Hxw & Hyh).
  destruct r as [x y w h]. cbn in Hx, Hy, Hxw, Hyh.
  unfold onBodyMove, onBodyDown, App.clamp. cbn.
  f_equal; split_minmax; lra.
Qed.

Lemma body_press_without_move_witness :
  onBodyMove (Some (App.ImgSize.mk 800 500)) (App.Rect.mk 120 120 220 160)
             (onBodyDown (App.Rect.mk 120 120 220 160) (App.Pt.mk 200 200))
             (App.Pt.mk 200 200)
  = App.Rect.mk 120 120 220 160.
Proof.
  apply body_press_without_move. unfold within. cbn. lra.
Defined.

Lemma idle_step (bounds : option App.ImgSize.t) (ed : Editor) (ev : Event) :
  is_press ev = false ->
  bodyDown (refs ed) = false -> (forall ix iy, cornerDown ed ix iy = false) ->
  rect (step bounds ed ev) = rect ed
  /\ bodyDown (refs (step bounds ed ev)) = false
  /\ (forall ix iy, cornerDown (step bounds ed ev) ix iy = false).
Proof.
  intros Hev Hbody Hcorner.
  destruct ev; try discriminate Hev; cbn [step].
  - rewrite Hcorner. repeat split; assumption.
  - cbn [rect refs cornerDown]. repeat split; try assumption.
    intros jx jy. unfold set_down.
    destruct (ix_eqb ix jx && ix_eqb iy jy); [reflexivity | apply Hcorner].
  - cbn [rect refs cornerDown]. unfold onBodyMove. rewrite Hbody.
    repeat split; assumption.
  - cbn [rect refs cornerDown onBodyUp bodyDown]. repeat split; assumption.
Qed.

(** X24. Without a pointer-down on a corner or on the body, no sequence
    of moves and releases changes the rectangle. *)
Theorem moves_without_press_keep_rect (bounds : option App.ImgSize.t)
    (r : App.Rect.t) (evs : list Event) :
  forallb (fun ev => negb (is_press ev)) evs = true ->
  rect (run bounds (mount r) evs) = r.
Proof.
  intros Hall.
  assert (Hgen : forall ed : Editor,
             bodyDown (refs ed) = false ->
             (forall ix iy, cornerDown ed ix iy = false) ->
             rect (run bounds ed evs) = rect ed).
  { induction evs as [| ev rest IH]; intros ed Hbody Hcorner.
    - reflexivity.
    - cbn [forallb] in Hall. apply andb_true_iff in Hall.
      destruct Hall as [Hev Hrest]. apply negb_true_iff in Hev.
      destruct (idle_step bounds ed ev Hev Hbody Hcorner) as (Hr & Hb & Hc).
      rewrite run_cons.
      rewrite (IH Hrest _ Hb Hc). exact Hr. }
  apply (Hgen (mount r)); reflexivity.
Qed.

Lemma moves_without_press_keep_rect_witness :
  rect (run (Some (App.ImgSize.mk 800 500)) (mount (App.Rect.mk 120 120 220 160))
            [CornerMove App.I0 App.I0 (App.Pt.mk 0 0);
             BodyMove (App.Pt.mk 500 500); BodyUp])
  = App.Rect.mk 120 120 220 160.
Proof.
  apply moves_without_press_keep_rect. reflexivity.
Defined.

Lemma setCorner_within (image : App.ImgSize.t) (r : App.Rect.t)
    (ix iy : App.Ix) (p : App.Pt.t) :
  within image r -> 0 <= App.Rect.w r -> 0 <= App.Rect.h r -> inside image p ->
  within image (setCorner r ix iy p).
Proof.
  unfold within, inside. intros (Hx & Hy & Hxw & Hyh) Hw Hh (Hpx & Hpy).
  destruct r as [x y w h], p as [px py].
  cbn in Hx, Hy, Hxw, Hyh, Hw, Hh, Hpx, Hpy.
  destruct ix, iy; unfold setCorner; cbn; repeat split; split_minmax; lra.
Qed.

(** X25. As long as corners are dragged to positions within the image,
    the editor keeps the rectangle within the image and its extents
    non-negative, through every sequence of corner and body events. *)
Theorem editor_keeps_rect_within (image : App.ImgSize.t) (evs : list Event) :
  forall ed : Editor,
    within image (rect ed) ->
    0 <= App.Rect.w (rect ed) -> 0 <= App.Rect.h (rect ed) ->
    Forall (pointer_inside image) evs ->
    within image (rect (run (Some image) ed evs))
    /\ 0 <= App.Rect.w (rect (run (Some image) ed evs))
    /\ 0 <= App.Rect.h (rect (run (Some image) ed evs)).
Proof.
  induction evs as [| ev rest IH]; intros ed Hin Hw Hh Hall.
  - change (run (Some image) ed []) with ed.
    split; [exact Hin | split; assumption].
  - inversion Hall as [| ? ? Hev Hrest]; subst.
    rewrite !run_cons.
    destruct (step_extent_nonneg (Some image) ed ev (conj Hw Hh)) as [Hw' Hh'].
    apply IH; try assumption.
    destruct ev; cbn [step rect]; try exact Hin.
    + destruct (cornerDown ed ix iy); cbn [rect]; [| exact Hin].
      apply setCorner_within; assumption.
    + destruct (bodyDown (refs ed)) eqn:Hdown.
      * destruct Hin as (Hx & Hy & Hxw & Hyh).
        apply onBodyMove_within; [exact Hdown | lra | lra].
      * unfold onBodyMove. rewrite Hdown. exact Hin.
Qed.

Lemma editor_keeps_rect_within_witness :
  let image := App.ImgSize.mk 800 500 in
  within image
    (rect (run (Some image) (mount (App.Rect.mk 120 120 220 160))
               [CornerDown App.I0 App.I0;
                CornerMove App.I0 App.I0 (App.Pt.mk 700 10);
                BodyDown (App.Pt.mk 400 100);
                BodyMove (App.Pt.mk 4000 (-300))])).
Proof.
  cbv zeta.
  apply (editor_keeps_rect_within (App.ImgSize.mk 800 500)).
  - unfold within. cbn. lra.
  - cbn. lra.
  - cbn. lra.
  - repeat constructor; cbn; lra.
Defined.

(** ** Instances of two earlier lemmas *)

(** A corner dragged far past the opposite corner, then back, with a
    body drag in between. *)
Lemma run_extent_nonneg_witness :
  let ed := run None (mount (App.Rect.mk 120 120 220 160))
                [CornerDown App.I0 App.I0;
                 CornerMove App.I0 App.I0 (App.Pt.mk 900 900);
                 BodyDown (App.Pt.mk 0 0);
                 BodyMove (App.Pt.mk (-2000) 50);
                 CornerMove App.I0 App.I0 (App.Pt.mk (-30) 40)] in
  0 <= App.Rect.w (rect ed) /\ 0 <= App.Rect.h (rect ed).
Proof.
  cbv zeta.
  apply (run_extent_nonneg None). cbn. lra.
Defined.

(** A POST with no body. *)
Lemma handler_post_without_body_witness :
  Api.status (Api.handler "t0" "t1" (Api.mkReq "POST" Api.JUndefined)) = 500%nat.
Proof.
  rewrite (handler_post_without_body "t0" "t1" Api.JUndefined (or_introl eq_refl)).
  reflexivity.
Defined.
